(** * Forki food database: matcher, classifier and merger

    A shallow embedding of [FoodDatabase/habitpet_extractor.py] and
    [FoodDatabase/assign_usda_categories.py], and the properties of the
    whitelist matcher, the keyword classifier, the category lookup and the
    deduplicating merger.

    Conventions of the embedding.
    - A Python [str] is a [string]; each character stands for the code point
      of the same number, so the model covers text whose code points are
      below 256 (ASCII and the Latin-1 supplement).  On that range the tables
      of [str.lower], [str.strip] and the regular-expression classes [\w] and
      [\s] are written out below.
    - A Python [float] is a binary64 [float] of the kernel, so scores are
      computed with the rounding the interpreter applies.
    - A [dict] read with [.get(key, default)] is a record whose field is an
      [option]; a [dict] used as a table is a [gmap].
    - A function that can raise returns a [result]. *)

From Stdlib Require Import Floats Uint63 ZArith Ascii String List Sorted Permutation.
From stdpp Require Import base option list strings gmap pretty.

Local Open Scope string_scope.
Local Open Scope list_scope.

(** ** Python text primitives *)

Module Text.

Definition code (c : ascii) : N := N_of_ascii c.

Definition between (lo hi : N) (c : ascii) : bool :=
  (lo <=? code c)%N && (code c <=? hi)%N.

(** [str.isspace]: the characters [str.strip] removes and [\s] matches. *)
Definition is_space (c : ascii) : bool :=
  between 9 13 c || between 28 32 c || (code c =? 133)%N || (code c =? 160)%N.

(** The class [\w] of a [str] pattern: alphanumeric characters and [_]. *)
Definition is_word (c : ascii) : bool :=
  between 48 57 c || between 65 90 c || (code c =? 95)%N || between 97 122 c
  || (code c =? 170)%N || between 178 179 c || (code c =? 181)%N
  || between 185 186 c || between 188 190 c
  || (between 192 255 c && negb (code c =? 215)%N && negb (code c =? 247)%N).

Definition is_upper (c : ascii) : bool :=
  between 65 90 c || (between 192 222 c && negb (code c =? 215)%N).

Definition lower_char (c : ascii) : ascii :=
  if is_upper c then ascii_of_N (code c + 32) else c.

Fixpoint map_chars (f : ascii -> ascii) (s : string) : string :=
  match s with
  | EmptyString => EmptyString
  | String c s' => String (f c) (map_chars f s')
  end.

(** [s.lower()] *)
Definition lower (s : string) : string := map_chars lower_char s.

(** [s.lstrip()] *)
Fixpoint lstrip (s : string) : string :=
  match s with
  | EmptyString => EmptyString
  | String c s' => if is_space c then lstrip s' else s
  end.

(** [s.rstrip()] *)
Fixpoint rstrip (s : string) : string :=
  match s with
  | EmptyString => EmptyString
  | String c s' =>
      match rstrip s' with
      | EmptyString => if is_space c then EmptyString else String c EmptyString
      | r => String c r
      end
  end.

(** [s.strip()] *)
Definition strip (s : string) : string := rstrip (lstrip s).

(** [a.startswith(b)] *)
Definition startswith (a b : string) : bool := String.prefix b a.

(** [x in s] for two strings: [x] occurs in [s] as a contiguous substring. *)
Fixpoint str_in (x s : string) : bool :=
  String.prefix x s ||
  match s with
  | EmptyString => false
  | String _ s' => str_in x s'
  end.

(** [any(x in s for x in keywords)] *)
Definition any_in (keywords : list string) (s : string) : bool :=
  existsb (fun x => str_in x s) keywords.

(** [len(s)] *)
Definition len (s : string) : nat := String.length s.

(** [a < b] on strings: lexicographic on code points, a proper prefix first. *)
Fixpoint str_ltb (a b : string) : bool :=
  match a, b with
  | _, EmptyString => false
  | EmptyString, String _ _ => true
  | String x a', String y b' =>
      (code x <? code y)%N || ((code x =? code y)%N && str_ltb a' b')
  end.

(** Every character of [s] passes the test [p]. *)
Fixpoint all_chars (p : ascii -> bool) (s : string) : bool :=
  match s with
  | EmptyString => true
  | String c s' => p c && all_chars p s'
  end.

(** [s] does not begin with a whitespace character. *)
Definition starts_clean (s : string) : bool :=
  match s with
  | EmptyString => true
  | String c _ => negb (is_space c)
  end.

(** The line feed that ends a line read from a file. *)
Definition newline : string := String (ascii_of_nat 10) EmptyString.

(** [bool(s)] for a string: it is not empty. *)
Definition nonempty (s : string) : bool :=
  match s with
  | EmptyString => false
  | String _ _ => true
  end.

End Text.

Import Text.

(** ** Python numbers and control *)

(** The outcome of a call that may raise. *)
Inductive result (A : Type) : Type :=
| Ok (a : A)
| ZeroDivisionError.
Arguments Ok {A} a.
Arguments ZeroDivisionError {A}.

(** [float(n)] for a length [n]; exact below 2^53, as every length is. *)
Definition float_of_nat (n : nat) : float :=
  PrimFloat.of_uint63 (Uint63.of_Z (Z.of_nat n)).

(** [a / b] on two lengths: true division, which raises on a zero divisor. *)
Definition truediv (a b : nat) : result float :=
  match b with
  | O => ZeroDivisionError
  | S _ => Ok (PrimFloat.div (float_of_nat a) (float_of_nat b))
  end.

(** [a > b] on floats. *)
Definition float_gt (a b : float) : bool := PrimFloat.ltb b a.

(** [min(a, b)]: the first argument unless the second is smaller. *)
Definition py_min (a b : float) : float :=
  if PrimFloat.ltb b a then b else a.

(** ** Records shared by the two scripts *)

(** The value of an [fdcId] field as JSON carries it: a number or a string. *)
Inductive json_id : Type :=
| JInt (z : Z)
| JStr (s : string).

(** [str(v)] *)
Definition str (v : json_id) : string :=
  match v with
  | JInt z => pretty z
  | JStr s => s
  end.

(** An entry of [habitpet_local_foods.json] and of the FNDDS files: the
    extractor writes it, the category assigner reads it.  A missing key is
    [None]. *)
Record food_record : Type := {
  name : option string;
  searchKey : option string;
  record_fdcId : option json_id;
  category : option string;
  record_calories : option float;
  record_protein : option float;
  record_carbs : option float;
  record_fat : option float
}.

(** A record with a name, a search key and an identifier, and nothing else. *)
Definition sample_record (n k : option string) (id : option json_id) : food_record :=
  {| name := n; searchKey := k; record_fdcId := id; category := None;
     record_calories := None; record_protein := None; record_carbs := None;
     record_fat := None |}.

(** ** habitpet_extractor.py *)

Module Extractor.

(** [re.sub(r'[^\w\s]', ' ', text.lower()).strip()] *)
Definition normalize_text (text : string) : string :=
  strip (map_chars (fun c => if is_word c || is_space c then c else " "%char)
                   (lower text)).

(** The scorers of [rapidfuzz.fuzz] the matcher passes to [process.extractOne]. *)
Inductive scorer : Type :=
| token_set_ratio
| partial_ratio
| token_sort_ratio.

Section matcher.

(** [process.extractOne(query, choices, scorer=..., score_cutoff=...)] of the
    rapidfuzz library: a [(choice, score, index)] triple or [None].  The
    library is not part of the repository; the matcher is modelled over any
    such function. *)
Variable extractOne : scorer -> string -> list string -> float -> option (string * float * nat).

(** One [if match and match[1] > best_score:] update of the fuzzy tier. *)
Definition consider (m : option (string * float * nat))
    (best : option (string * float * nat) * float) : option (string * float * nat) * float :=
  match m with
  | Some (choice, score, index) =>
      if float_gt score (snd best) then (Some (choice, score, index), score) else best
  | None => best
  end.

(** Strategy 4 of [match_whitelist_item]. *)
Definition fuzzy_match (desc_normalized : string) (whitelist : list string)
    : option (string * float) :=
  let best := (None, 0%float) in
  let best := consider (extractOne token_set_ratio desc_normalized whitelist 60%float) best in
  let best := consider (extractOne partial_ratio desc_normalized whitelist 60%float) best in
  let best := consider (extractOne token_sort_ratio desc_normalized whitelist 60%float) best in
  match fst best with
  | Some (choice, score, _) => Some (choice, score)
  | None => None
  end.

(** The tests of the three [for item in whitelist] loops. *)
Definition is_exact (desc_normalized item : string) : bool :=
  String.eqb desc_normalized (normalize_text item).

Definition is_affix (desc_normalized item : string) : bool :=
  let item_normalized := normalize_text item in
  startswith desc_normalized item_normalized || startswith item_normalized desc_normalized.

Definition is_contained (desc_normalized item : string) : bool :=
  let item_normalized := normalize_text item in
  str_in item_normalized desc_normalized || str_in desc_normalized item_normalized.

(** [score = min(len(item_normalized) / len(desc_normalized) * 90, 90.0)] *)
Definition contains_score (desc_normalized item : string) : result float :=
  match truediv (len (normalize_text item)) (len desc_normalized) with
  | Ok q => Ok (py_min (PrimFloat.mul q 90%float) 90%float)
  | ZeroDivisionError => ZeroDivisionError
  end.

Definition match_whitelist_item (description : string) (whitelist : list string)
    : result (option (string * float)) :=
  let desc_normalized := normalize_text description in
  (* Strategy 1: Exact match *)
  match find (is_exact desc_normalized) whitelist with
  | Some item => Ok (Some (item, 100%float))
  | None =>
  (* Strategy 2: Starts with *)
  match find (is_affix desc_normalized) whitelist with
  | Some item => Ok (Some (item, 95%float))
  | None =>
  (* Strategy 3: Contains *)
  match find (is_contained desc_normalized) whitelist with
  | Some item =>
      match contains_score desc_normalized item with
      | Ok score => Ok (Some (item, score))
      | ZeroDivisionError => ZeroDivisionError
      end
  | None =>
  (* Strategy 4: Fuzzy matching with rapidfuzz *)
      Ok (fuzzy_match desc_normalized whitelist)
  end end end.

End matcher.

(** A stand-in for rapidfuzz that never finds a candidate, for evaluating
    the matcher on inputs the first three strategies decide. *)
Definition no_fuzzy (s : scorer) (query : string) (choices : list string) (cutoff : float)
    : option (string * float * nat) := None.

(** The value [7/22 * 90] as the interpreter computes it. *)
Definition seven_22nds_of_90 : float :=
  PrimFloat.mul (PrimFloat.div (float_of_nat 7) (float_of_nat 22)) 90%float.

(** *** map_category *)

Definition poultry_keywords : list string := ["chicken"; "turkey"; "poultry"].

Definition meat_keywords : list string :=
  ["beef"; "pork"; "meat"; "steak"; "brisket"; "ribeye"; "sirloin";
   "sausage"; "bacon"; "ham"; "pepperoni"; "salami"; "hot dog";
   "bratwurst"; "jerky"; "gyro"; "shawarma"; "meatloaf"; "lasagna"].

Definition seafood_keywords : list string :=
  ["salmon"; "tuna"; "shrimp"; "fish"; "cod"; "tilapia";
   "sardines"; "mackerel"; "sushi"; "poke"; "clam"; "crab";
   "mussels"; "calamari"; "tempura"].

Definition plant_keywords : list string :=
  ["tofu"; "tempeh"; "lentils"; "chickpeas"; "hummus"; "falafel";
   "edamame"; "beans"; "impossible"; "beyond"; "vegan"; "veggie burger";
   "seitan"; "soy"].

Definition egg_keywords : list string := ["egg"; "omelette"; "scrambled"].

Definition grain_keywords : list string :=
  ["rice"; "quinoa"; "couscous"; "farro"; "barley"; "oatmeal";
   "oats"; "granola"; "pasta"; "spaghetti"; "penne"; "fettuccine";
   "macaroni"; "lasagna"; "ravioli"; "gnocchi"; "noodles"; "ramen";
   "soba"; "udon"; "tortillas"; "pita"; "naan"; "bagel"; "bread";
   "roll"; "sourdough"].

Definition vegetable_keywords : list string :=
  ["broccoli"; "cauliflower"; "carrots"; "celery"; "spinach";
   "kale"; "lettuce"; "greens"; "peppers"; "tomatoes"; "cucumbers";
   "avocado"; "onions"; "potatoes"; "sweet potatoes"; "zucchini";
   "squash"; "mushrooms"; "eggplant"; "cabbage"; "brussels"; "kimchi";
   "sauerkraut"; "beans"; "peas"; "corn"; "asparagus"; "bok choy";
   "pickles"; "jalapeno"; "salsa"; "guacamole"; "coleslaw";
   "artichokes"; "seaweed"; "beets"; "radish"; "pumpkin"; "turnips"].

Definition fruit_keywords : list string :=
  ["apple"; "banana"; "orange"; "mandarin"; "grapes"; "strawberries";
   "blueberries"; "raspberries"; "blackberries"; "mango"; "pineapple";
   "watermelon"; "cantaloupe"; "honeydew"; "kiwi"; "peaches"; "plums";
   "nectarines"; "pomegranate"; "pears"; "cherries"; "guava"; "papaya";
   "passion fruit"; "cranberries"; "raisins"; "dates"; "figs";
   "lemon"; "lime"; "grapefruit"].

Definition dairy_keywords : list string :=
  ["milk"; "cream"; "yogurt"; "cheese"; "cottage"; "butter";
   "margarine"; "ice cream"; "frozen yogurt"; "ricotta"; "parmesan";
   "feta"; "goat cheese"; "kefir"; "whipped cream"].

Definition breakfast_keywords : list string :=
  ["pancakes"; "waffles"; "french toast"; "breakfast"; "hash browns";
   "chia pudding"; "cereal"].

Definition sandwich_keywords : list string :=
  ["sandwich"; "wrap"; "burrito"; "quesadilla"; "tacos"; "pita"].

Definition frozen_keywords : list string :=
  ["frozen"; "microwave"; "bento"; "tv dinner"; "heat and eat"].

Definition snack_keywords : list string :=
  ["chips"; "crackers"; "pretzels"; "popcorn"; "nuts"; "almonds";
   "walnuts"; "cashews"; "pistachios"; "peanut butter"; "almond butter";
   "rice cakes"; "jerky"; "fruit snacks"; "chocolate"; "cookies";
   "brownies"; "muffins"; "banana bread"; "protein bar"; "granola bar";
   "trail mix"; "edamame snack"; "seaweed snacks"; "veggie straws"].

Definition drink_keywords : list string :=
  ["water"; "soda"; "coffee"; "tea"; "latte"; "cappuccino";
   "lemonade"; "smoothie"; "shake"; "sports drink"; "energy drink";
   "juice"; "kombucha"; "milkshake"; "chai"; "matcha"].

Definition dessert_keywords : list string :=
  ["cake"; "cupcakes"; "donuts"; "pie"; "pudding"; "sorbet";
   "cheesecake"; "tiramisu"; "mochi"; "churros"; "cinnamon rolls";
   "banana split"].

Definition salad_keywords : list string :=
  ["salad"; "caesar"; "greek"; "garden"; "cobb"; "quinoa salad";
   "lentil salad"; "pasta salad"; "fruit salad"].

Definition international_keywords : list string :=
  ["pad thai"; "pho"; "ramen"; "bibimbap"; "tikka"; "masala";
   "biryani"; "curry"; "gyro"; "shawarma"; "falafel"; "poke bowl";
   "teriyaki"; "katsu"; "spring rolls"; "dumplings"; "gyoza";
   "poutine"; "empanada"; "tamales"; "enchiladas"; "arepas"].

(** Map food description to simplified category. *)
Definition map_category (description whitelist_item : string) : string :=
  let desc_lower := lower description in
  let item_lower := lower whitelist_item in
  (* Protein categories *)
  if any_in poultry_keywords item_lower then "Protein - Poultry"
  else if any_in meat_keywords item_lower then "Protein - Meat"
  else if any_in seafood_keywords item_lower then "Protein - Seafood"
  else if any_in plant_keywords item_lower then "Protein - Plant-Based"
  else if any_in egg_keywords item_lower then "Protein - Eggs"
  (* Grains & Starches *)
  else if any_in grain_keywords item_lower then "Grains & Starches"
  (* Vegetables *)
  else if any_in vegetable_keywords item_lower then "Vegetables"
  (* Fruits *)
  else if any_in fruit_keywords item_lower then "Fruits"
  (* Dairy *)
  else if any_in dairy_keywords item_lower then "Dairy & Alternatives"
  (* Breakfast *)
  else if any_in breakfast_keywords item_lower then "Breakfast"
  (* Sandwiches & Wraps *)
  else if any_in sandwich_keywords item_lower then "Sandwiches & Wraps"
  (* Frozen & Ready Meals *)
  else if any_in frozen_keywords item_lower then "Frozen & Ready Meals"
  (* Snacks *)
  else if any_in snack_keywords item_lower then "Snacks"
  (* Drinks *)
  else if any_in drink_keywords item_lower then "Drinks"
  (* Desserts *)
  else if any_in dessert_keywords item_lower then "Desserts"
  (* Salads *)
  else if any_in salad_keywords item_lower then "Salads"
  (* International *)
  else if any_in international_keywords item_lower then "International & Ethnic"
  (* Pizza *)
  else if str_in "pizza" item_lower then "Pizza"
  (* Default *)
  else "Other".

(** *** extract_nutrients *)

(** One element of [foodNutrients]: [nutrient.get('nutrient', {}).get('number', '')]
    and [nutrient.get('amount')]. *)
Record nutrient_entry : Type := {
  number : string;
  amount : option float
}.

(** A food of the SR Legacy file, with the fields the extractor reads:
    [description] and [fdcId] may be missing, [foodNutrients] defaults to [[]]. *)
Record food_item : Type := {
  description : option string;
  fdcId : option json_id;
  foodNutrients : list nutrient_entry
}.

(** The dict [extract_nutrients] returns. *)
Record nutrients : Type := {
  calories : option float;
  protein : option float;
  carbs : option float;
  fat : option float
}.

(** The body of [for nutrient in food_nutrients], with the ids of [NUTRIENT_IDS]. *)
Definition set_nutrient (acc : nutrients) (nutrient : nutrient_entry) : nutrients :=
  if String.eqb (number nutrient) "208" then
    {| calories := amount nutrient; protein := protein acc; carbs := carbs acc; fat := fat acc |}
  else if String.eqb (number nutrient) "203" then
    {| calories := calories acc; protein := amount nutrient; carbs := carbs acc; fat := fat acc |}
  else if String.eqb (number nutrient) "205" then
    {| calories := calories acc; protein := protein acc; carbs := amount nutrient; fat := fat acc |}
  else if String.eqb (number nutrient) "204" then
    {| calories := calories acc; protein := protein acc; carbs := carbs acc; fat := amount nutrient |}
  else acc.

Definition extract_nutrients (item : food_item) : nutrients :=
  fold_left set_nutrient (foodNutrients item)
    {| calories := None; protein := None; carbs := None; fat := None |}.

(** *** main: the matching pass *)

Section pass.

Variable extractOne : scorer -> string -> list string -> float -> option (string * float * nat).
Variable whitelist : list string.

(** The body of [for idx, food_item in enumerate(sr_legacy_data)], on the dict
    [whitelist_matches : whitelist_item -> (food_item, score, description)].
    The dict is a [gmap]: what it holds for an entry is modelled, the order
    in which its items are read later is not. *)
Definition pass_step (whitelist_matches : gmap string (food_item * float * string))
    (item : food_item) : result (gmap string (food_item * float * string)) :=
  let desc := default "" (description item) in
  match match_whitelist_item extractOne desc whitelist with
  | ZeroDivisionError => ZeroDivisionError
  | Ok None => Ok whitelist_matches
  | Ok (Some (matched_item, score)) =>
      let nutrients := extract_nutrients item in
      (* Skip if missing critical nutrients *)
      match calories nutrients with
      | None => Ok whitelist_matches
      | Some _ =>
          (* Store best match for this whitelist item (higher score wins) *)
          match whitelist_matches !! matched_item with
          | None => Ok (<[matched_item := (item, score, desc)]> whitelist_matches)
          | Some (_, stored, _) =>
              if float_gt score stored
              then Ok (<[matched_item := (item, score, desc)]> whitelist_matches)
              else Ok whitelist_matches
          end
      end
  end.

Fixpoint pass_from (whitelist_matches : gmap string (food_item * float * string))
    (sr_legacy_data : list food_item) : result (gmap string (food_item * float * string)) :=
  match sr_legacy_data with
  | [] => Ok whitelist_matches
  | item :: rest =>
      match pass_step whitelist_matches item with
      | Ok whitelist_matches' => pass_from whitelist_matches' rest
      | ZeroDivisionError => ZeroDivisionError
      end
  end.

(** [whitelist_matches] after the loop over [sr_legacy_data]. *)
Definition matching_pass (sr_legacy_data : list food_item)
    : result (gmap string (food_item * float * string)) :=
  pass_from ∅ sr_legacy_data.

(** [match_whitelist_item(food_item.get('description', ''), whitelist)] *)
Definition match_of (item : food_item) : result (option (string * float)) :=
  match_whitelist_item extractOne (default "" (description item)) whitelist.

(** [item] matched the entry [w] with score [s] and carries a calories
    value: the records the pass stores or compares. *)
Definition eligible (w : string) (item : food_item) (s : float) : Prop :=
  match_of item = Ok (Some (w, s)) /\ calories (extract_nutrients item) <> None.

(** What [whitelist_matches] holds for the entry [w] after a pass over
    [sr_legacy_data]: nothing when no eligible record matched [w]; otherwise
    an eligible record, at some position [i], whose score is strictly higher
    than the score of every eligible record for [w] before it and is not
    exceeded by any eligible record for [w] after it. *)
Definition retained_best (sr_legacy_data : list food_item) (w : string)
    (entry : option (food_item * float * string)) : Prop :=
  match entry with
  | Some (item, s, d) =>
      exists i : nat,
        sr_legacy_data !! i = Some item
        /\ d = default "" (description item)
        /\ eligible w item s
        /\ forall (j : nat) (item' : food_item) (s' : float),
             sr_legacy_data !! j = Some item' -> eligible w item' s' ->
             (j < i -> float_gt s s' = true) /\ (i < j -> float_gt s' s = false)
  | None =>
      forall (item : food_item) (s : float), In item sr_legacy_data -> ~ eligible w item s
  end.

(** The claim without the calories guard: [item] matched [w] with score [s]. *)
Definition matched (w : string) (item : food_item) (s : float) : Prop :=
  match_of item = Ok (Some (w, s)).

End pass.

(** One [output_item] of the conversion loop. *)
Definition output_item (matched_item : string) (entry : food_item * float * string)
    : food_record :=
  let '(item, score, desc) := entry in
  let nutrients := extract_nutrients item in
  let category := map_category desc matched_item in
  {| name := Some desc; searchKey := None; record_fdcId := fdcId item;
     category := Some category;
     record_calories := calories nutrients; record_protein := protein nutrients;
     record_carbs := carbs nutrients; record_fat := fat nutrients |}.

(** *** Further definitions for the extractor's properties *)

(** What [re.sub(r'[^\w\s]', ' ', ...)] does to one character. *)
Definition sub_char (c : ascii) : ascii := if is_word c || is_space c then c else " "%char.

(** [whitelist = [line.strip().lower() for line in f if line.strip()]], on
    the lines of the whitelist file. *)
Definition load_whitelist (lines : list string) : list string :=
  map (fun line => lower (strip line)) (List.filter (fun line => nonempty (strip line)) lines).

(** A stand-in for rapidfuzz that proposes the first choice with score 70. *)
Definition first_choice_fuzzy (s : scorer) (query : string) (choices : list string)
    (cutoff : float) : option (string * float * nat) :=
  match choices with
  | [] => None
  | choice :: _ => Some (choice, 70%float, 0)
  end.

(** The rules of [map_category] as a table, in the order of its [if]s: the
    label a rule returns and the keywords that fire it. *)
Definition rules : list (string * list string) :=
  [ ("Protein - Poultry", poultry_keywords);
    ("Protein - Meat", meat_keywords);
    ("Protein - Seafood", seafood_keywords);
    ("Protein - Plant-Based", plant_keywords);
    ("Protein - Eggs", egg_keywords);
    ("Grains & Starches", grain_keywords);
    ("Vegetables", vegetable_keywords);
    ("Fruits", fruit_keywords);
    ("Dairy & Alternatives", dairy_keywords);
    ("Breakfast", breakfast_keywords);
    ("Sandwiches & Wraps", sandwich_keywords);
    ("Frozen & Ready Meals", frozen_keywords);
    ("Snacks", snack_keywords);
    ("Drinks", drink_keywords);
    ("Desserts", dessert_keywords);
    ("Salads", salad_keywords);
    ("International & Ethnic", international_keywords);
    ("Pizza", ["pizza"]) ].

(** The label of the first rule of a table that fires on [text], "Other"
    when none does. *)
Definition first_rule (table : list (string * list string)) (text : string) : string :=
  match find (fun rule => any_in (snd rule) text) table with
  | Some rule => fst rule
  | None => "Other"
  end.

(** The amount of the last entry of the list that bears the nutrient id. *)
Definition last_amount (id : string) (food_nutrients : list nutrient_entry) : option float :=
  match find (fun nutrient => String.eqb (number nutrient) id) (rev food_nutrients) with
  | Some nutrient => amount nutrient
  | None => None
  end.

Section pass_outcome.

Variable extractOne : scorer -> string -> list string -> float -> option (string * float * nat).
Variable whitelist : list string.

(** The records the pass does not skip: matched, and with a calories value. *)
Definition stores (item : food_item) : bool :=
  match match_of extractOne whitelist item with
  | Ok (Some _) => bool_decide (is_Some (calories (extract_nutrients item)))
  | _ => false
  end.

(** [missing_items = [item for item in whitelist if item not in whitelist_matches]] *)
Definition missing_items (whitelist_matches : gmap string (food_item * float * string))
    : list string :=
  List.filter (fun item => bool_decide (whitelist_matches !! item = None)) whitelist.

(** The test form of [eligible]: [item] matched the entry [w], with whatever
    score, and carries a calories value. *)
Definition matches_entry (w : string) (item : food_item) : bool :=
  match match_of extractOne whitelist item with
  | Ok (Some (matched_item, _)) =>
      String.eqb matched_item w && bool_decide (is_Some (calories (extract_nutrients item)))
  | _ => false
  end.

(** What the dict holds at any point of the pass over [data]: under an entry
    a record of [data] that matched it and has calories, with its score and
    description; no entry only where no such record exists. *)
Definition holds_eligible (data : list food_item)
    (m : gmap string (food_item * float * string)) : Prop :=
  forall w,
    match m !! w with
    | Some (item, s, d) =>
        In item data /\ d = default "" (description item)
        /\ eligible extractOne whitelist w item s
    | None => forall item s, In item data -> ~ eligible extractOne whitelist w item s
    end.

End pass_outcome.

End Extractor.

(** ** assign_usda_categories.py *)

Module Categories.

(** [str(item.get('fdcId', ''))] *)
Definition fdc_id_of (item : food_record) : string :=
  match record_fdcId item with
  | Some v => str v
  | None => ""
  end.

Section lookup.

(** The three tables of step 2: [fndds_category_by_fdc_id] (fdcId to category
    description), [categoryByFdcId] (fdcId to food_category_id) and
    [categoryMap] (food_category_id to category description). *)
Variable fndds_category_by_fdc_id : gmap string string.
Variable categoryByFdcId : gmap string string.
Variable categoryMap : gmap string string.

(** Assign USDA category to an item based on its fdcId. *)
Definition assign_category (item : food_record) : string :=
  let fdc_id := fdc_id_of item in
  (* First try FNDDS category (for FNDDS foods) *)
  match fndds_category_by_fdc_id !! fdc_id with
  | Some description => description
  | None =>
      (* Then try SR Legacy category (for SR Legacy foods) *)
      match categoryByFdcId !! fdc_id with
      | Some food_category_id =>
          match categoryMap !! food_category_id with
          | Some description => description
          | None => "Uncategorized"
          end
      | None => "Uncategorized"
      end
  end.

(** [item_copy = item.copy(); item_copy['category'] = assign_category(item)] *)
Definition categorize (item : food_record) : food_record :=
  {| name := name item; searchKey := searchKey item; record_fdcId := record_fdcId item;
     category := Some (assign_category item);
     record_calories := record_calories item; record_protein := record_protein item;
     record_carbs := record_carbs item; record_fat := record_fat item |}.

End lookup.

(** [not s] for a string. *)
Definition is_empty (s : string) : bool :=
  match s with
  | EmptyString => true
  | String _ _ => false
  end.

(** The unique key of the deduplication loop: prefer [searchKey], fall back
    to the normalized [name]. *)
Definition unique_key_of (item : food_record) : string :=
  let unique_key := lower (strip (default "" (searchKey item))) in
  if is_empty unique_key then lower (strip (default "" (name item))) else unique_key.

(** The body of [for item in all_foods], on [seen_keys] and [master_foods]. *)
Definition dedup_step (st : gmap string bool * list food_record) (item : food_record)
    : gmap string bool * list food_record :=
  let '(seen_keys, master_foods) := st in
  let unique_key := unique_key_of item in
  if negb (is_empty unique_key) && negb (bool_decide (is_Some (seen_keys !! unique_key))) then
    (<[unique_key := true]> seen_keys, master_foods ++ [item])
  else if is_empty unique_key then
    (* If no key at all, add it anyway *)
    (seen_keys, master_foods ++ [item])
  else st.

(** [master_foods] after the deduplication loop. *)
Definition dedup (all_foods : list food_record) : list food_record :=
  snd (fold_left dedup_step all_foods (∅, [])).

Definition get_sort_key (item : food_record) : string :=
  let key := lower (strip (default "" (searchKey item))) in
  if is_empty key then lower (strip (default "" (name item))) else key.

(** [list.sort(key=get_sort_key)] is the interpreter's: a stable sort that
    compares keys with [<] only.  It is modelled by the stable insertion
    sort; [stable_sort_unique] below shows that the arrangement a stable sort
    produces is determined by its input, whatever the algorithm. *)
Fixpoint insert_sorted (x : food_record) (l : list food_record) : list food_record :=
  match l with
  | [] => [x]
  | y :: l' =>
      if str_ltb (get_sort_key y) (get_sort_key x) then y :: insert_sorted x l'
      else x :: l
  end.

Definition sort_by_key (l : list food_record) : list food_record :=
  foldr insert_sorted [] l.

(** Step 5 on the concatenated list [all_foods]: deduplicate, then sort. *)
Definition merge (all_foods : list food_record) : list food_record :=
  sort_by_key (dedup all_foods).

(** Step 5: [master_foods] from the three collections, in their fixed order. *)
Definition master_foods (local_foods fndds_added_categorized fndds_manual_categorized
    : list food_record) : list food_record :=
  merge (local_foods ++ fndds_added_categorized ++ fndds_manual_categorized).

(** [item] bears the key [k]. *)
Definition bears (k : string) (item : food_record) : bool :=
  String.eqb (unique_key_of item) k.

(** The deduplication policy in the words of the specification: a record is
    kept when its key is empty or no earlier record bears the key. *)
Definition keeps (earlier : list food_record) (item : food_record) : bool :=
  is_empty (unique_key_of item) || negb (existsb (bears (unique_key_of item)) earlier).

Fixpoint first_occurrences (earlier all_foods : list food_record) : list food_record :=
  match all_foods with
  | [] => []
  | item :: rest =>
      (if keeps earlier item then [item] else [])
      ++ first_occurrences (earlier ++ [item]) rest
  end.

(** The order of the sort on records: [a] may stand before [b]. *)
Definition key_le (a b : food_record) : Prop :=
  str_ltb (get_sort_key b) (get_sort_key a) = false.

(** [(seen_keys, master_foods)] after the loop has read [l]. *)
Definition dedup_state (l : list food_record) : gmap string bool * list food_record :=
  fold_left dedup_step l (∅, []).

(** The non-empty keys of a list of records, in order. *)
Definition nonempty_keys (l : list food_record) : list string :=
  List.filter (fun k => negb (is_empty k)) (map unique_key_of l).

(** No two records of [l] bear the same non-empty key. *)
Definition distinct_keys (l : list food_record) : Prop := NoDup (nonempty_keys l).

(** *** Step 2: the lookup tables *)

(** A row of [food_category.csv] as [csv.DictReader] yields it; a column the
    file lacks is [None]. *)
Record category_row : Type := {
  row_id : option string;
  row_description : option string
}.

(** A row of [food.csv]. *)
Record food_row : Type := {
  row_fdc_id : option string;
  row_food_category_id : option string
}.

(** The value under ['wweiaFoodCategory']: a dict, whose description may be
    missing, or something that is no dict. *)
Inductive wweia_value : Type :=
| WweiaDict (wweiaFoodCategoryDescription : option string)
| WweiaOther.

(** A food of the FNDDS file, with the fields step 2 reads. *)
Record survey_food : Type := {
  survey_fdcId : option json_id;
  wweiaFoodCategory : option wweia_value
}.

(** [if key and value: table[key] = value], the guard and the store that
    end the body of each of the three loops. *)
Definition table_entry (key value : string) (table : gmap string string)
    : gmap string string :=
  if nonempty key && nonempty value then <[key := value]> table else table.

(** [categoryMap]: food_category_id -> category_description *)
Definition build_categoryMap (category_data : list category_row) : gmap string string :=
  fold_left (fun categoryMap row =>
               let cat_id := strip (default "" (row_id row)) in
               let cat_desc := strip (default "" (row_description row)) in
               table_entry cat_id cat_desc categoryMap)
            category_data ∅.

(** [categoryByFdcId]: fdcId -> food_category_id (for SR Legacy) *)
Definition build_categoryByFdcId (food_data : list food_row) : gmap string string :=
  fold_left (fun categoryByFdcId row =>
               let fdc_id := strip (default "" (row_fdc_id row)) in
               let cat_id := strip (default "" (row_food_category_id row)) in
               table_entry fdc_id cat_id categoryByFdcId)
            food_data ∅.

(** [str(food.get('fdcId', ''))] *)
Definition survey_fdc_id (food : survey_food) : string :=
  match survey_fdcId food with
  | Some v => str v
  | None => ""
  end.

(** [fndds_category_by_fdc_id]: fdcId -> wweiaFoodCategoryDescription *)
Definition build_fndds_category_by_fdc_id (fndds_foods : list survey_food)
    : gmap string string :=
  fold_left (fun table food =>
               let fdc_id := survey_fdc_id food in
               match default (WweiaDict None) (wweiaFoodCategory food) with
               | WweiaDict description =>
                   let cat_desc := strip (default "" description) in
                   table_entry fdc_id cat_desc table
               | WweiaOther => table
               end)
            fndds_foods ∅.

(** [assign_category] on the tables step 2 builds from the loaded files. *)
Definition assign_from_files (fndds_foods : list survey_food) (food_data : list food_row)
    (category_data : list category_row) (item : food_record) : string :=
  assign_category (build_fndds_category_by_fdc_id fndds_foods)
                  (build_categoryByFdcId food_data)
                  (build_categoryMap category_data) item.

(** The table a list of key and value pairs leaves when each pair goes
    through [table_entry] in turn; the three loops are instances. *)
Definition table_of (entries : list (string * string)) : gmap string string :=
  fold_left (fun table kv => table_entry (fst kv) (snd kv) table) entries ∅.

(** The pair a row, or a food, hands to [table_entry]; a food whose category
    is no dict hands over nothing, as the empty pair does. *)
Definition category_pair (row : category_row) : string * string :=
  (strip (default "" (row_id row)), strip (default "" (row_description row))).

Definition food_pair (row : food_row) : string * string :=
  (strip (default "" (row_fdc_id row)), strip (default "" (row_food_category_id row))).

Definition survey_pair (food : survey_food) : string * string :=
  match default (WweiaDict None) (wweiaFoodCategory food) with
  | WweiaDict description => (survey_fdc_id food, strip (default "" description))
  | WweiaOther => ("", "")
  end.

(** A pair [table_entry] stores. *)
Definition stored (kv : string * string) : bool := nonempty (fst kv) && nonempty (snd kv).

(** *** Step 6: the summary *)

(** [Counter(...)]: one more for the label, from nothing when it is new. *)
Definition count_one (counts : gmap string nat) (label : string) : gmap string nat :=
  <[label := S (default 0 (counts !! label))]> counts.

(** [item.get('category', 'Unknown')] *)
Definition category_or_unknown (item : food_record) : string :=
  default "Unknown" (category item).

(** [category_counts = Counter(item.get('category', 'Unknown') for item in master_foods)] *)
Definition category_counts (master : list food_record) : gmap string nat :=
  fold_left count_one (map category_or_unknown master) ∅.

(** [uncategorized_count = category_counts.get('Uncategorized', 0)] *)
Definition uncategorized_count (master : list food_record) : nat :=
  default 0 (category_counts master !! "Uncategorized").

(** The sum of the counts of a counter. *)
Definition total_count (counts : gmap string nat) : nat :=
  map_fold (fun _ n acc => n + acc) 0 counts.

End Categories.

(** * Properties *)

(** ** Text *)

Module TextFacts.

Lemma prefix_empty (s : string) : String.prefix "" s = true.
Proof. destruct s; reflexivity. Qed.

Lemma len_zero (s : string) : len s = 0 -> s = "".
Proof. destruct s; [reflexivity | discriminate]. Qed.

Lemma prefix_map_chars (f : ascii -> ascii) (x s : string) :
  String.prefix x s = true -> String.prefix (map_chars f x) (map_chars f s) = true.
Proof.
  revert s; induction x as [|c x IH]; intros [|d s]; simpl; try easy.
  destruct (Ascii.ascii_dec c d) as [->|]; [|discriminate].
  destruct (Ascii.ascii_dec (f d) (f d)); [apply IH | congruence].
Qed.

(** Lower-casing keeps every occurrence of a substring. *)
Lemma str_in_lower (x s : string) :
  str_in x s = true -> str_in (lower x) (lower s) = true.
Proof.
  induction s as [|d s IH]; simpl; intros H; apply orb_true_iff in H;
    apply orb_true_iff; destruct H as [H|H]; try discriminate.
  - left. apply (prefix_map_chars lower_char x ""), H.
  - left. apply (prefix_map_chars lower_char x (String d s)), H.
  - right. apply IH, H.
Qed.

(** The first element a [for ... if ...: return] loop stops at. *)
Lemma find_first {A : Type} (p : A -> bool) (l : list A) (x : A) :
  find p l = Some x ->
  exists pre post, l = pre ++ x :: post /\ p x = true /\ forall y, In y pre -> p y = false.
Proof.
  induction l as [|a l IH]; simpl; [discriminate|].
  destruct (p a) eqn:Ha; intros H.
  - injection H as ->. exists [], l. repeat split; [exact Ha | intros y []].
  - destruct (IH H) as (pre & post & -> & Hx & Hpre).
    exists (a :: pre), post. repeat split; [exact Hx|].
    intros y [<-|Hy]; [exact Ha | apply Hpre, Hy].
Qed.

Lemma find_app_first {A : Type} (p : A -> bool) (pre post : list A) (x : A) :
  (forall y, In y pre -> p y = false) -> p x = true ->
  find p (pre ++ x :: post) = Some x.
Proof.
  intros Hpre Hx. induction pre as [|a pre IH]; simpl.
  - rewrite Hx. reflexivity.
  - rewrite (Hpre a (or_introl eq_refl)). apply IH. intros y Hy. apply Hpre. right. exact Hy.
Qed.

Lemma find_all_false {A : Type} (p : A -> bool) (l : list A) :
  (forall y, In y l -> p y = false) -> find p l = None.
Proof.
  intros H. destruct (find p l) as [x|] eqn:E; [|reflexivity].
  apply find_some in E as [Hin Hp]. rewrite (H x Hin) in Hp. discriminate.
Qed.

(** *** The order on strings *)

Lemma code_inj (a b : ascii) : code a = code b -> a = b.
Proof.
  unfold code. intros H. rewrite <- (ascii_N_embedding a), <- (ascii_N_embedding b), H.
  reflexivity.
Qed.

Lemma str_ltb_irrefl (a : string) : str_ltb a a = false.
Proof.
  induction a as [|x a IH]; simpl; [reflexivity|].
  rewrite N.ltb_irrefl, N.eqb_refl, IH. reflexivity.
Qed.

Lemma str_ltb_trans (a b c : string) :
  str_ltb a b = true -> str_ltb b c = true -> str_ltb a c = true.
Proof.
  revert b c; induction a as [|x a IH]; intros [|y b] [|z c]; simpl; try easy.
  intros Hab Hbc.
  apply orb_true_iff in Hab, Hbc. apply orb_true_iff.
  destruct Hab as [Hab|Hab], Hbc as [Hbc|Hbc];
    rewrite ?andb_true_iff, ?N.ltb_lt, ?N.eqb_eq in *.
  - left. lia.
  - left. lia.
  - left. lia.
  - right. split; [lia|]. apply (IH b c); tauto.
Qed.

Lemma str_ltb_asym (a b : string) : str_ltb a b = true -> str_ltb b a = false.
Proof.
  intros H. destruct (str_ltb b a) eqn:E; [|reflexivity].
  rewrite <- (str_ltb_irrefl a). symmetry. apply (str_ltb_trans a b a); assumption.
Qed.

Lemma str_ltb_total (a b : string) :
  str_ltb a b = false -> str_ltb b a = false -> a = b.
Proof.
  revert b; induction a as [|x a IH]; intros [|y b]; simpl; try easy.
  intros Hab Hba.
  apply orb_false_iff in Hab as [Hxy Hab], Hba as [Hyx Hba].
  apply N.ltb_ge in Hxy, Hyx.
  assert (code x = code y) as Hc by lia.
  rewrite Hc, N.eqb_refl in Hab, Hba. simpl in Hab, Hba.
  rewrite (code_inj x y Hc), (IH b Hab Hba). reflexivity.
Qed.

(** [str_ltb] is the lexicographic order: [a < b] when [a] is a proper
    prefix of [b], or when at the first position where they differ the
    character of [a] has the smaller code point. *)
Lemma str_ltb_lexicographic (a b : string) :
  str_ltb a b = true <->
  exists p : string,
    (exists y b', a = p /\ b = String.append p (String y b'))
    \/ (exists x y a' b', a = String.append p (String x a')
                          /\ b = String.append p (String y b') /\ (code x < code y)%N).
Proof.
  split.
  - revert b; induction a as [|x a IH]; intros [|y b]; simpl; try discriminate.
    + intros _. exists "". left. exists y, b. split; reflexivity.
    + intros H. apply orb_true_iff in H as [H|H].
      * apply N.ltb_lt in H. exists "". right. exists x, y, a, b. repeat split. exact H.
      * apply andb_true_iff in H as [Hc H]. apply N.eqb_eq, code_inj in Hc. subst y.
        destruct (IH b H) as [p [(y & b' & -> & ->)|(x' & y & a' & b' & -> & -> & Hlt)]];
          exists (String x p).
        -- left. exists y, b'. split; reflexivity.
        -- right. exists x', y, a', b'. repeat split. exact Hlt.
  - intros [p H]. revert a b H; induction p as [|c p IH]; intros a b H.
    + destruct H as [(y & b' & -> & ->)|(x & y & a' & b' & -> & -> & Hlt)]; simpl.
      * reflexivity.
      * apply orb_true_iff. left. apply N.ltb_lt, Hlt.
    + assert (exists a0 b0, a = String c a0 /\ b = String c b0 /\ str_ltb a0 b0 = true)
        as (a0 & b0 & -> & -> & H0).
      { destruct H as [(y & b' & -> & ->)|(x & y & a' & b' & -> & -> & Hlt)].
        - eexists _, _. split; [reflexivity|]. split; [reflexivity|].
          apply IH. left. exists y, b'. split; reflexivity.
        - eexists _, _. split; [reflexivity|]. split; [reflexivity|].
          apply IH. right. exists x, y, a', b'. repeat split. exact Hlt. }
      simpl. rewrite N.eqb_refl, H0. apply orb_true_r.
Qed.

End TextFacts.

(** ** The whitelist matcher *)

Module MatcherFacts.

Import Extractor TextFacts.

Section facts.

Variable extractOne : scorer -> string -> list string -> float -> option (string * float * nat).

Lemma is_exact_eq (desc_normalized item : string) :
  is_exact desc_normalized item = true <-> desc_normalized = normalize_text item.
Proof. apply String.eqb_eq. Qed.

(** An empty normalized description is a prefix of every entry. *)
Lemma is_affix_blank (item : string) : is_affix "" item = true.
Proof.
  unfold is_affix, startswith. rewrite (prefix_empty (normalize_text item)).
  apply orb_true_r.
Qed.

(** The division of strategy 3 is never reached with an empty description:
    strategy 2 has returned before. *)
Lemma contains_score_defined (desc_normalized : string) (whitelist : list string) (item : string) :
  find (is_affix desc_normalized) whitelist = None ->
  In item whitelist ->
  exists score, contains_score desc_normalized item = Ok score.
Proof.
  intros Hnone Hin. unfold contains_score, truediv.
  destruct (len desc_normalized) eqn:Hlen; [|eexists; reflexivity].
  apply len_zero in Hlen. subst desc_normalized.
  pose proof (find_none _ _ Hnone _ Hin) as H. rewrite is_affix_blank in H. discriminate.
Qed.

(** [match_whitelist_item] returns on every input: it raises nothing. *)
Lemma match_whitelist_item_returns (description : string) (whitelist : list string) :
  exists r, match_whitelist_item extractOne description whitelist = Ok r.
Proof.
  unfold match_whitelist_item.
  destruct (find (is_exact _) whitelist); [eexists; reflexivity|].
  destruct (find (is_affix _) whitelist) eqn:Haffix; [eexists; reflexivity|].
  destruct (find (is_contained _) whitelist) as [item|] eqn:Hc; [|eexists; reflexivity].
  apply find_some in Hc as [Hin _].
  destruct (contains_score_defined _ _ _ Haffix Hin) as [score ->].
  eexists; reflexivity.
Qed.

(** With a blank description and an entry in the whitelist, the matcher
    returns an entry: one that is blank too, with score 100, or else the
    first entry, with score 95. *)
Lemma blank_description_matches (description item : string) (rest : list string) :
  normalize_text description = "" ->
  (exists w, match_whitelist_item extractOne description (item :: rest) = Ok (Some (w, 100%float)))
  \/ match_whitelist_item extractOne description (item :: rest) = Ok (Some (item, 95%float)).
Proof.
  intros Hblank. unfold match_whitelist_item. rewrite Hblank.
  destruct (find (is_exact "") (item :: rest)) as [w|]; [left; eexists; reflexivity|].
  right. simpl. rewrite is_affix_blank. reflexivity.
Qed.

(** With an empty whitelist only rapidfuzz is asked; when it finds nothing
    among no choices, there is no match. *)
Lemma empty_whitelist_no_match (description : string) :
  (forall s query cutoff, extractOne s query [] cutoff = None) ->
  match_whitelist_item extractOne description [] = Ok None.
Proof.
  intros Hnone. unfold match_whitelist_item, fuzzy_match. simpl.
  rewrite !Hnone. reflexivity.
Qed.

End facts.

(** C1, at the input the code receives for a food that has no description:
    for the empty description [""] and the whitelist [["apple"]] the matcher
    returns the entry ["apple"] with score 95 instead of no match, whatever
    the fuzzy scorers are; the same holds for a description of blanks and
    punctuation.  It raises nothing. *)
Theorem empty_description_is_matched :
  forall extractOne,
    match_whitelist_item extractOne "" ["apple"] = Ok (Some ("apple", 95%float))
    /\ normalize_text " ?! " = ""
    /\ match_whitelist_item extractOne " ?! " ["apple"] = Ok (Some ("apple", 95%float)).
Proof. intros extractOne. repeat split. Qed.

(** C3: when the description normalizes to the same text as some entry of the
    whitelist, the matcher returns the first such entry with score 100, and
    the result is the same for every fuzzy scorer. *)
Theorem exact_match_wins (D : string) (V : list string) :
  (exists v, In v V /\ normalize_text v = normalize_text D) ->
  exists pre v post,
    V = pre ++ v :: post
    /\ normalize_text v = normalize_text D
    /\ (forall u, In u pre -> normalize_text u <> normalize_text D)
    /\ forall extractOne, match_whitelist_item extractOne D V = Ok (Some (v, 100%float)).
Proof.
  intros (v0 & Hin & Hv0).
  destruct (find (is_exact (normalize_text D)) V) as [v|] eqn:Hfind.
  - destruct (find_first _ _ _ Hfind) as (pre & post & HV & Hv & Hpre).
    exists pre, v, post. split; [exact HV|]. split.
    + symmetry. apply is_exact_eq, Hv.
    + split.
      * intros u Hu Heq. specialize (Hpre u Hu).
        assert (is_exact (normalize_text D) u = true) as Ht
          by (apply is_exact_eq; symmetry; exact Heq).
        congruence.
      * intros extractOne. unfold match_whitelist_item. rewrite Hfind. reflexivity.
  - pose proof (find_none _ _ Hfind _ Hin) as Hf.
    assert (is_exact (normalize_text D) v0 = true) as Ht
      by (apply is_exact_eq; symmetry; exact Hv0).
    congruence.
Qed.

(** Two entries normalize to the description; the first is returned. *)
Lemma exact_match_wins_witness :
  exists pre v post,
    ["Apple Pie"; "apple-pie"; "apple"] = pre ++ v :: post
    /\ normalize_text v = normalize_text "APPLE PIE!"
    /\ (forall u, In u pre -> normalize_text u <> normalize_text "APPLE PIE!")
    /\ forall extractOne,
         match_whitelist_item extractOne "APPLE PIE!" ["Apple Pie"; "apple-pie"; "apple"]
         = Ok (Some (v, 100%float)).
Proof.
  apply (exact_match_wins "APPLE PIE!" ["Apple Pie"; "apple-pie"; "apple"]).
  exists "apple-pie". split; [simpl; auto | vm_compute; reflexivity].
Defined.

(** The score of strategy 3 is [min(len(item)/len(description) * 90, 90)]
    on the normalized texts, for the first entry the strategy finds. *)
Lemma substring_score_formula extractOne (description item : string) (whitelist : list string) :
  find (is_exact (normalize_text description)) whitelist = None ->
  find (is_affix (normalize_text description)) whitelist = None ->
  find (is_contained (normalize_text description)) whitelist = Some item ->
  match_whitelist_item extractOne description whitelist
  = Ok (Some (item,
      py_min (PrimFloat.mul
                (PrimFloat.div (float_of_nat (len (normalize_text item)))
                               (float_of_nat (len (normalize_text description))))
                90%float) 90%float)).
Proof.
  intros H1 H2 H3. unfold match_whitelist_item. rewrite H1, H2, H3.
  destruct (contains_score_defined _ _ _ H2 (proj1 (find_some _ _ H3))) as [score Hs].
  rewrite Hs. revert Hs. unfold contains_score, truediv.
  destruct (len (normalize_text description)); [discriminate|].
  intros [= <-]. reflexivity.
Qed.

(** C2 fails as stated: for ["chicken breast grilled"] and the whitelist
    [["chicken"]] the matcher does not return the substring score
    [min(7/22 * 90, 90)]. *)
Lemma chicken_prefix_not_substring_score :
  match_whitelist_item no_fuzzy "chicken breast grilled" ["chicken"]
  <> Ok (Some ("chicken", py_min seven_22nds_of_90 90%float)).
Proof.
  intros H.
  apply (f_equal (fun r => match r with
                           | Ok (Some (_, score)) => PrimFloat.ltb score 90%float
                           | _ => false
                           end)) in H.
  vm_compute in H. discriminate.
Qed.

(** C2, amended: for the description ["chicken breast grilled"] and a
    whitelist in which no entry normalizes to the description itself and
    ["chicken"] is the first entry that is a prefix of the normalized
    description or extends it, the matcher returns ["chicken"] with score 95:
    the starts-with strategy fires before the substring strategy. *)
Theorem chicken_prefix_scores_95 extractOne (pre post : list string) :
  (forall u, In u (pre ++ "chicken" :: post) ->
             normalize_text u <> normalize_text "chicken breast grilled") ->
  (forall u, In u pre -> is_affix (normalize_text "chicken breast grilled") u = false) ->
  match_whitelist_item extractOne "chicken breast grilled" (pre ++ "chicken" :: post)
  = Ok (Some ("chicken", 95%float)).
Proof.
  intros Hexact Hpre. unfold match_whitelist_item.
  rewrite find_all_false.
  - rewrite (find_app_first _ pre post "chicken" Hpre); reflexivity.
  - intros u Hu. destruct (is_exact _ u) eqn:E; [|reflexivity].
    apply is_exact_eq in E. destruct (Hexact u Hu). symmetry. exact E.
Qed.

(** The amended statement on a whitelist of three entries. *)
Lemma chicken_prefix_scores_95_witness :
  match_whitelist_item no_fuzzy "chicken breast grilled" (["rice"] ++ "chicken" :: ["chicken breast"])
  = Ok (Some ("chicken", 95%float)).
Proof.
  apply (chicken_prefix_scores_95 no_fuzzy ["rice"] ["chicken breast"]).
  - intros u Hu. simpl in Hu.
    destruct Hu as [<-|[<-|[<-|[]]]]; vm_compute; discriminate.
  - intros u Hu. simpl in Hu. destruct Hu as [<-|[]]. vm_compute. reflexivity.
Defined.

(** The substring formula at work: with the same words in another order the
    entry is no prefix, and the score is [min(7/22 * 90, 90) = 7/22 * 90]. *)
Example grilled_chicken_breast_score :
  forall extractOne,
    match_whitelist_item extractOne "grilled chicken breast" ["chicken"]
    = Ok (Some ("chicken", seven_22nds_of_90))
    /\ py_min seven_22nds_of_90 90%float = seven_22nds_of_90
    /\ PrimFloat.ltb seven_22nds_of_90 95%float = true.
Proof. intros extractOne. repeat split. Qed.

End MatcherFacts.

(** ** The keyword classifier *)

Module ClassifierFacts.

Import Extractor TextFacts.

Lemma any_in_member (keywords : list string) (k s : string) :
  In k keywords -> str_in k s = true -> any_in keywords s = true.
Proof.
  intros Hin Hk. unfold any_in. apply existsb_exists. exists k. split; assumption.
Qed.

(** A keyword written in lower case occurs in the lower-cased name as soon
    as it occurs in the name. *)
Lemma keyword_in_lower (k s : string) :
  lower k = k -> str_in k s = true -> str_in k (lower s) = true.
Proof. intros Hk H. rewrite <- Hk. apply str_in_lower, H. Qed.

(** C4 fails as stated when the text that contains the keywords is the
    description: the description ["chicken and beans"] contains both
    ["beans"] and ["chicken"], and with the matched name ["rice"] the
    category is "Grains & Starches".  In the pipeline, the description
    ["Beans with chicken"] is matched to the whitelist entry ["beans"] and
    classified "Protein - Plant-Based". *)
Lemma description_keywords_do_not_classify :
  str_in "beans" "chicken and beans" = true
  /\ str_in "chicken" "chicken and beans" = true
  /\ map_category "chicken and beans" "rice" = "Grains & Starches"
  /\ map_category "chicken and beans" "rice" <> "Protein - Poultry"
  (* and in the pipeline: the description is matched to "beans" *)
  /\ match_whitelist_item no_fuzzy "Beans with chicken" ["beans"; "chicken"]
     = Ok (Some ("beans", 95%float))
  /\ map_category "Beans with chicken" "beans" = "Protein - Plant-Based".
Proof. repeat split. vm_compute. discriminate. Qed.

(** C4, amended: the rules are tried in their fixed order on the lower-cased
    matched whitelist name, whatever the description is.  A name that
    contains "beans" is "Protein - Poultry" when it also contains "chicken",
    and "Protein - Plant-Based" when it contains no keyword of the three
    earlier rules (poultry, meat, seafood); it is never "Vegetables". *)
Theorem first_rule_wins (description whitelist_item : string) :
  str_in "beans" (lower whitelist_item) = true ->
  (str_in "chicken" (lower whitelist_item) = true ->
     map_category description whitelist_item = "Protein - Poultry")
  /\ (any_in poultry_keywords (lower whitelist_item) = false ->
      any_in meat_keywords (lower whitelist_item) = false ->
      any_in seafood_keywords (lower whitelist_item) = false ->
        map_category description whitelist_item = "Protein - Plant-Based")
  /\ map_category description whitelist_item <> "Vegetables".
Proof.
  intros Hbeans.
  assert (any_in plant_keywords (lower whitelist_item) = true) as Hplant
    by (apply (any_in_member _ "beans"); [simpl; tauto | exact Hbeans]).
  unfold map_category. split; [|split].
  - intros Hchicken.
    rewrite (any_in_member poultry_keywords "chicken" _); [reflexivity | simpl; tauto | exact Hchicken].
  - intros -> -> ->. rewrite Hplant. reflexivity.
  - destruct (any_in poultry_keywords _); [discriminate|].
    destruct (any_in meat_keywords _); [discriminate|].
    destruct (any_in seafood_keywords _); [discriminate|].
    rewrite Hplant. discriminate.
Qed.

(** Both outcomes on names of mixed case. *)
Lemma first_rule_wins_witness :
  map_category "Beans, baked, with CHICKEN" "Chicken & Beans" = "Protein - Poultry"
  /\ map_category "Beans, black, mature seeds" "Black Beans" = "Protein - Plant-Based".
Proof.
  split.
  - apply (first_rule_wins "Beans, baked, with CHICKEN" "Chicken & Beans"); reflexivity.
  - apply (first_rule_wins "Beans, black, mature seeds" "Black Beans"); reflexivity.
Defined.

(** C10: the category depends on the matched whitelist item only; two
    descriptions give the same category, and so do two output items of the
    conversion loop built for the same whitelist item. *)
Theorem map_category_ignores_description (w d1 d2 : string) :
  map_category d1 w = map_category d2 w
  /\ forall item1 item2 s1 s2,
       category (output_item w (item1, s1, d1)) = category (output_item w (item2, s2, d2)).
Proof.
  split.
  - unfold map_category. reflexivity.
  - intros item1 item2 s1 s2. unfold output_item, map_category. reflexivity.
Qed.

End ClassifierFacts.

(** ** Category by identifier *)

Module LookupFacts.

Import Categories.

(** C6: the key of the lookup is [str] of the record's [fdcId], the empty
    string for a record without one.  The direct table is tried first under
    that key, then the two-hop tables, and the answer is "Uncategorized" when
    neither has the identifier; the function is total, it raises on no record
    and no table. *)
Theorem assign_category_lookup
    (fndds_category_by_fdc_id categoryByFdcId categoryMap : gmap string string)
    (item : food_record) :
  let assign := assign_category fndds_category_by_fdc_id categoryByFdcId categoryMap in
  let fdc_id := match record_fdcId item with
                | Some (JInt z) => pretty z
                | Some (JStr s) => s
                | None => ""
                end in
  (forall description,
      fndds_category_by_fdc_id !! fdc_id = Some description ->
      assign item = description)
  /\ (forall food_category_id description,
      fndds_category_by_fdc_id !! fdc_id = None ->
      categoryByFdcId !! fdc_id = Some food_category_id ->
      categoryMap !! food_category_id = Some description ->
      assign item = description)
  /\ (fndds_category_by_fdc_id !! fdc_id = None ->
      (categoryByFdcId !! fdc_id = None
       \/ exists food_category_id,
            categoryByFdcId !! fdc_id = Some food_category_id
            /\ categoryMap !! food_category_id = None) ->
      assign item = "Uncategorized").
Proof.
  cbv zeta. unfold assign_category, fdc_id_of, str.
  destruct (record_fdcId item) as [[z|s]|]; repeat split.
  all: try (intros description ->; reflexivity).
  all: try (intros food_category_id description -> -> ->; reflexivity).
  all: intros -> [-> | (food_category_id & -> & ->)]; reflexivity.
Qed.

(** The three outcomes on concrete tables: an FNDDS food, an SR Legacy food
    found through its category id, and a food neither table knows. *)
Example assign_category_cases :
  let fndds : gmap string string := {[ "2341752" := "Yogurt, regular" ]} in
  let by_fdc : gmap string string := {[ "171077" := "5"; "2341752" := "1"; "9" := "77" ]} in
  let cats : gmap string string := {[ "1" := "Dairy and Egg Products"; "5" := "Poultry Products" ]} in
  let item id := {| name := Some "x"; searchKey := None; record_fdcId := id; category := None;
                    record_calories := None; record_protein := None;
                    record_carbs := None; record_fat := None |} in
  assign_category fndds by_fdc cats (item (Some (JInt 2341752))) = "Yogurt, regular"
  /\ assign_category fndds by_fdc cats (item (Some (JStr "171077"))) = "Poultry Products"
  /\ assign_category fndds by_fdc cats (item (Some (JInt 9))) = "Uncategorized"
  /\ assign_category fndds by_fdc cats (item None) = "Uncategorized".
Proof. vm_compute. repeat split. Qed.

End LookupFacts.

(** ** The order on floats

    The comparisons of binary64 numbers, through their specification on
    [spec_float]: [<] is transitive, and a number that is not NaN and not
    above [b] is below whatever [b] is below. *)

Module FloatFacts.

Local Open Scope Z_scope.

Ltac cmp_cases :=
  repeat match goal with
  | H : context [Z.compare ?a ?b] |- _ => destruct (Z.compare_spec a b); try subst
  | |- context [Z.compare ?a ?b] => destruct (Z.compare_spec a b); try subst
  | H : context [PosDef.Pos.compare_cont Eq ?a ?b] |- _ =>
      change (PosDef.Pos.compare_cont Eq a b) with (Pos.compare a b) in *;
      destruct (Pos.compare_spec a b); try subst
  | |- context [PosDef.Pos.compare_cont Eq ?a ?b] =>
      change (PosDef.Pos.compare_cont Eq a b) with (Pos.compare a b) in *;
      destruct (Pos.compare_spec a b); try subst
  end.

Ltac sf_order :=
  unfold SFltb, SFeqb, SFcompare;
  repeat match goal with s : bool |- _ => destruct s end;
  simpl; try discriminate; try reflexivity;
  intros; cmp_cases; simpl in *; try discriminate; try reflexivity; try lia.

Lemma SFltb_trans (a b c : spec_float) :
  SFltb a b = true -> SFltb b c = true -> SFltb a c = true.
Proof. destruct a, b, c; sf_order. Qed.

Lemma SFltb_le_lt (a b c : spec_float) :
  SFeqb a a = true -> SFltb b a = false -> SFltb b c = true -> SFltb a c = true.
Proof. destruct a, b, c; sf_order. Qed.

Lemma float_lt_trans (a b c : float) :
  PrimFloat.ltb a b = true -> PrimFloat.ltb b c = true -> PrimFloat.ltb a c = true.
Proof. rewrite !FloatAxioms.ltb_spec. apply SFltb_trans. Qed.

Lemma float_le_lt_trans (a b c : float) :
  PrimFloat.is_nan a = false ->
  PrimFloat.ltb b a = false -> PrimFloat.ltb b c = true -> PrimFloat.ltb a c = true.
Proof.
  unfold PrimFloat.is_nan. rewrite negb_false_iff, FloatAxioms.eqb_spec, !FloatAxioms.ltb_spec.
  apply SFltb_le_lt.
Qed.

Lemma float_lt_irrefl (a : float) : PrimFloat.ltb a a = false.
Proof. rewrite FloatAxioms.ltb_spec. destruct (Prim2SF a); sf_order. Qed.

End FloatFacts.

(** ** The matching pass *)

Module PassFacts.

Import Extractor MatcherFacts FloatFacts.

Section pass_facts.

Variable extractOne : scorer -> string -> list string -> float -> option (string * float * nat).
Variable whitelist : list string.

Local Abbreviation match_of := (Extractor.match_of extractOne whitelist).
Local Abbreviation eligible := (Extractor.eligible extractOne whitelist).
Local Abbreviation retained_best := (Extractor.retained_best extractOne whitelist).

Lemma pass_from_snoc (m : gmap string (food_item * float * string))
    (l : list food_item) (x : food_item) :
  pass_from extractOne whitelist m (l ++ [x])
  = match pass_from extractOne whitelist m l with
    | Ok m' => pass_step extractOne whitelist m' x
    | ZeroDivisionError => ZeroDivisionError
    end.
Proof.
  revert m; induction l as [|y l IH]; intros m; simpl.
  - destruct (pass_step _ _ m x); reflexivity.
  - destruct (pass_step _ _ m y); [apply IH | reflexivity].
Qed.

Lemma eligible_score (w : string) (item : food_item) (s s' : float) :
  eligible w item s -> eligible w item s' -> s = s'.
Proof.
  intros [H _] [H' _]. rewrite H in H'.
  apply (f_equal (fun r => match r with Ok (Some (_, x)) => x | _ => s end)) in H'.
  exact H'.
Qed.

Lemma eligible_entry (w w' : string) (item : food_item) (s s' : float) :
  match_of item = Ok (Some (w, s)) -> eligible w' item s' -> w' = w.
Proof.
  intros H [H' _]. rewrite H in H'.
  apply (f_equal (fun r => match r with Ok (Some (x, _)) => x | _ => w end)) in H'.
  symmetry. exact H'.
Qed.

Lemma lookup_snoc_cases (l : list food_item) (x y : food_item) (j : nat) :
  (l ++ [x]) !! j = Some y -> (j < length l /\ l !! j = Some y) \/ (j = length l /\ y = x).
Proof.
  intros H. destruct (decide (j < length l)) as [Hlt|Hge].
  - left. split; [exact Hlt|]. rewrite lookup_app_l in H; assumption.
  - right. rewrite lookup_app_r in H by lia.
    destruct (j - length l) as [|n] eqn:E; simpl in H; [|destruct n; discriminate].
    split; [lia | congruence].
Qed.

(** A record that is not eligible for [w] leaves the entry of [w] as it is. *)
Lemma retained_best_skip (data : list food_item) (x : food_item) (w : string)
    (entry : option (food_item * float * string)) :
  (forall s, ~ eligible w x s) ->
  retained_best data w entry -> retained_best (data ++ [x]) w entry.
Proof.
  intros Hx. destruct entry as [[[item s] d]|]; simpl.
  - intros (i & Hi & Hd & He & Hbest). exists i.
    split; [apply lookup_app_l_Some, Hi|]. split; [exact Hd|]. split; [exact He|].
    intros j item' s' Hj He'.
    apply lookup_snoc_cases in Hj as [[_ Hj]|[_ ->]]; [apply (Hbest j item' s' Hj He')|].
    destruct (Hx s' He').
  - intros Hnone item s Hin. apply in_app_iff in Hin as [Hin|[<-|[]]]; [apply Hnone, Hin | apply Hx].
Qed.

(** C7, amended: the pass raises nothing, and for every whitelist entry the
    association it retains is, among the source records that matched the
    entry and carry a calories value, the one with the highest score, the
    first-seen on equal scores: its score is strictly above the score of
    every such record before it and no such record after it has a higher
    score.  An entry no such record matched retains nothing.  Scores are
    compared as floats, so they are taken not to be NaN. *)
Theorem best_eligible_match_retained (sr_legacy_data : list food_item) :
  (forall item w s, In item sr_legacy_data -> match_of item = Ok (Some (w, s)) ->
                    PrimFloat.is_nan s = false) ->
  exists whitelist_matches,
    matching_pass extractOne whitelist sr_legacy_data = Ok whitelist_matches
    /\ forall w, retained_best sr_legacy_data w (whitelist_matches !! w).
Proof.
  unfold matching_pass.
  induction sr_legacy_data as [|x data IH] using rev_ind; intros Hnan.
  - exists ∅. split; [reflexivity|]. intros w. rewrite lookup_empty. intros item s [].
  - destruct IH as (m & Hm & Hinv).
    { intros item w s Hin. apply Hnan, in_app_iff. left. exact Hin. }
    rewrite pass_from_snoc, Hm. unfold pass_step. fold (match_of x).
    destruct (match_whitelist_item_returns extractOne (default "" (description x)) whitelist)
      as [r Hr].
    fold (match_of x) in Hr. rewrite Hr.
    destruct r as [[w0 s0]|].
    2:{ exists m. split; [reflexivity|]. intros w. apply retained_best_skip; [|apply Hinv].
        intros s [He _]. rewrite Hr in He. discriminate. }
    destruct (calories (extract_nutrients x)) as [c|] eqn:Hcal.
    2:{ exists m. split; [reflexivity|]. intros w. apply retained_best_skip; [|apply Hinv].
        intros s [_ He]. congruence. }
    assert (eligible w0 x s0) as Hel by (split; [exact Hr | congruence]).
    assert (forall w, w <> w0 -> forall s, ~ eligible w x s) as Hother.
    { intros w Hw s He. apply Hw. apply (eligible_entry w0 w x s0 s Hr He). }
    assert (
      (forall j item' s', data !! j = Some item' -> eligible w0 item' s' ->
                          float_gt s0 s' = true) ->
      retained_best (data ++ [x]) w0 (Some (x, s0, default "" (description x)))) as Hnew.
    { intros Hbeats. exists (length data).
      split; [apply list_lookup_middle; reflexivity|]. split; [reflexivity|].
      split; [exact Hel|]. intros j item' s' Hj He'.
      apply lookup_snoc_cases in Hj as [[Hlt Hj]|[-> ->]]; [|split; lia].
      split; [intros _; apply (Hbeats j item' s' Hj He') | lia]. }
    pose proof (Hinv w0) as Hw0.
    destruct (m !! w0) as [[[it st] d]|] eqn:Hlook.
    + destruct (float_gt s0 st) eqn:Hgt.
      * eexists. split; [reflexivity|]. intros w.
        rewrite lookup_insert. destruct (decide (w0 = w)) as [<-|Hne].
        -- apply Hnew. intros j item' s' Hj He'.
           destruct Hw0 as (i & Hi & _ & Hit & Hbest).
           destruct (Hbest j item' s' Hj He') as [Hbefore Hafter].
           unfold float_gt in *.
           destruct (lt_eq_lt_dec j i) as [[Hlt|Heq]|Hlt].
           ++ apply (float_lt_trans s' st s0); [apply Hbefore, Hlt | exact Hgt].
           ++ subst j. rewrite Hi in Hj. injection Hj as <-.
              rewrite (eligible_score w0 it s' st He' Hit). exact Hgt.
           ++ apply (float_le_lt_trans s' st s0); [|apply Hafter, Hlt | exact Hgt].
              apply (Hnan item' w0 s'); [|apply He'].
              apply in_app_iff. left. apply list_elem_of_In, list_elem_of_lookup. exists j. exact Hj.
        -- apply retained_best_skip; [apply Hother; congruence | apply Hinv].
      * exists m. split; [reflexivity|]. intros w.
        destruct (decide (w = w0)) as [->|Hne]; [|apply retained_best_skip; [apply Hother, Hne | apply Hinv]].
        rewrite Hlook. destruct Hw0 as (i & Hi & Hd & Hit & Hbest). exists i.
        split; [apply lookup_app_l_Some, Hi|]. split; [exact Hd|]. split; [exact Hit|].
        intros j item' s' Hj He'.
        apply lookup_snoc_cases in Hj as [[_ Hj]|[-> ->]]; [apply (Hbest j item' s' Hj He')|].
        apply lookup_lt_Some in Hi. split; [lia|]. intros _.
        rewrite (eligible_score w0 x s' s0 He' Hel). exact Hgt.
    + eexists. split; [reflexivity|]. intros w.
      rewrite lookup_insert. destruct (decide (w0 = w)) as [<-|Hne].
      * apply Hnew. intros j item' s' Hj He'. exfalso.
        apply (Hw0 item' s'); [|exact He'].
        apply list_elem_of_In, list_elem_of_lookup. exists j. exact Hj.
      * apply retained_best_skip; [apply Hother; congruence | apply Hinv].
Qed.

End pass_facts.

(** C7 fails as stated: a record that matched an entry but has no calories
    value is skipped, whatever its score.  Here the first food matches
    ["chicken"] exactly, with score 100, and carries no energy nutrient; the
    pass retains the second food, which matched with score 95. *)
Lemma skipped_record_outscores_retained :
  let no_calories := {| description := Some "Chicken"; fdcId := Some (JInt 171077);
                        foodNutrients := [{| number := "203"; amount := Some 20%float |}] |} in
  let with_calories := {| description := Some "Chicken breast"; fdcId := Some (JInt 171078);
                          foodNutrients := [{| number := "208"; amount := Some 165%float |}] |} in
  let sr_legacy_data := [no_calories; with_calories] in
  (exists whitelist_matches,
      matching_pass no_fuzzy ["chicken"] sr_legacy_data = Ok whitelist_matches
      /\ whitelist_matches !! "chicken" = Some (with_calories, 95%float, "Chicken breast"))
  /\ matched no_fuzzy ["chicken"] "chicken" no_calories 100%float
  /\ float_gt 100%float 95%float = true.
Proof.
  cbv zeta. split; [|split; reflexivity].
  eexists. split; [vm_compute; reflexivity|]. vm_compute. reflexivity.
Qed.

(** The pass over four foods for the whitelist [["chicken"]]: one without
    calories, two that tie at score 95, one matched as a substring. *)
Lemma best_eligible_match_retained_witness :
  let foods :=
    [ {| description := Some "Chicken"; fdcId := Some (JInt 171077);
         foodNutrients := [{| number := "203"; amount := Some 20%float |}] |};
      {| description := Some "Chicken breast"; fdcId := Some (JInt 171078);
         foodNutrients := [{| number := "208"; amount := Some 165%float |}] |};
      {| description := Some "Grilled chicken"; fdcId := None;
         foodNutrients := [{| number := "208"; amount := Some 150%float |}] |};
      {| description := Some "Chicken wings"; fdcId := None;
         foodNutrients := [{| number := "208"; amount := Some 290%float |}] |} ] in
  exists whitelist_matches,
    matching_pass no_fuzzy ["chicken"] foods = Ok whitelist_matches
    /\ forall w, retained_best no_fuzzy ["chicken"] foods w (whitelist_matches !! w).
Proof.
  cbv zeta. apply (best_eligible_match_retained no_fuzzy ["chicken"]).
  intros item w s Hin Hm.
  simpl in Hin. destruct Hin as [<-|[<-|[<-|[<-|[]]]]];
    apply (f_equal (fun r => match r with Ok (Some (_, x)) => x | _ => s end)) in Hm;
    vm_compute in Hm; subst s; reflexivity.
Defined.

End PassFacts.

(** ** The merger *)

Module MergerFacts.

Import Categories TextFacts.

Lemma is_empty_true (s : string) : is_empty s = true <-> s = "".
Proof. destruct s; simpl; split; congruence. Qed.

Lemma bears_eq (k : string) (item : food_record) :
  bears k item = true <-> unique_key_of item = k.
Proof. apply String.eqb_eq. Qed.

Lemma existsb_bears (k : string) (l : list food_record) :
  existsb (bears k) l = true <-> In k (map unique_key_of l).
Proof.
  rewrite existsb_exists, in_map_iff. split; intros (x & H1 & H2).
  - exists x. split; [apply bears_eq, H2 | exact H1].
  - exists x. split; [exact H2 | apply bears_eq, H1].
Qed.

Lemma dedup_state_snoc (pre : list food_record) (x : food_record) :
  dedup_state (pre ++ [x]) = dedup_step (dedup_state pre) x.
Proof. unfold dedup_state. rewrite fold_left_app. reflexivity. Qed.

(** The keys seen so far are the non-empty keys of the records read so far. *)
Lemma seen_keys_spec (pre : list food_record) (k : string) :
  is_Some ((dedup_state pre).1 !! k) <-> is_empty k = false /\ In k (map unique_key_of pre).
Proof.
  induction pre as [|x pre IH] using rev_ind.
  - simpl. rewrite lookup_empty. split; [intros [? ?]; discriminate | intros [_ []]].
  - rewrite dedup_state_snoc, map_app, in_app_iff. simpl.
    destruct (dedup_state pre) as [seen out] eqn:Est. simpl in IH. unfold dedup_step.
    destruct (is_empty (unique_key_of x)) eqn:Ee; simpl.
    + rewrite IH. split; [tauto|]. intros [Hk [H|[H|[]]]]; [tauto|]. congruence.
    + destruct (bool_decide (is_Some (seen !! unique_key_of x))) eqn:Ed; simpl.
      * apply bool_decide_eq_true in Ed. rewrite IH. split; [tauto|].
        intros [Hk [H|[H|[]]]]; [tauto|]. subst k. apply IH, Ed.
      * rewrite lookup_insert. destruct (decide (unique_key_of x = k)) as [<-|Hne].
        -- split; [intros _; tauto | intros _; eexists; reflexivity].
        -- rewrite IH. split; [tauto|]. intros [Hk [H|[H|[]]]]; [tauto|congruence].
Qed.

Lemma dedup_snoc (pre : list food_record) (item : food_record) :
  dedup (pre ++ [item]) = dedup pre ++ (if keeps pre item then [item] else []).
Proof.
  unfold dedup. fold (dedup_state (pre ++ [item])). fold (dedup_state pre).
  rewrite dedup_state_snoc.
  pose proof (seen_keys_spec pre (unique_key_of item)) as Hseen.
  destruct (dedup_state pre) as [seen out]. simpl in *. unfold dedup_step, keeps.
  destruct (is_empty (unique_key_of item)) eqn:Ee; simpl; [reflexivity|].
  destruct (existsb (bears (unique_key_of item)) pre) eqn:Eb; simpl.
  - rewrite bool_decide_eq_true_2; [simpl; rewrite app_nil_r; reflexivity|].
    apply Hseen. split; [reflexivity|]. apply existsb_bears, Eb.
  - rewrite bool_decide_eq_false_2; [reflexivity|].
    intros H. apply Hseen in H as [_ H]. apply existsb_bears in H. congruence.
Qed.

Lemma dedup_nil : dedup [] = [].
Proof. reflexivity. Qed.

Lemma dedup_app_first_occurrences (earlier rest : list food_record) :
  dedup (earlier ++ rest) = dedup earlier ++ first_occurrences earlier rest.
Proof.
  revert earlier; induction rest as [|x rest IH]; intros earlier; simpl.
  - rewrite !app_nil_r. reflexivity.
  - replace (earlier ++ x :: rest) with ((earlier ++ [x]) ++ rest)
      by (rewrite <- app_assoc; reflexivity).
    rewrite IH, dedup_snoc, <- app_assoc. reflexivity.
Qed.

Lemma dedup_sublist (l : list food_record) : sublist (dedup l) l.
Proof.
  induction l as [|x l IH] using rev_ind; [rewrite dedup_nil; constructor|].
  rewrite dedup_snoc. apply sublist_app; [exact IH|].
  destruct (keeps l x); [reflexivity | apply sublist_nil_l].
Qed.

(** *** First occurrences *)
Lemma filter_bears_nil (k : string) (l : list food_record) :
  existsb (bears k) l = false <-> List.filter (bears k) l = [].
Proof.
  induction l as [|x l IH]; simpl; [tauto|].
  destruct (bears k x); simpl; [split; discriminate | exact IH].
Qed.

Lemma dedup_first_of_key (k : string) (l : list food_record) :
  is_empty k = false ->
  List.filter (bears k) (dedup l) = firstn 1 (List.filter (bears k) l).
Proof.
  intros Hk. induction l as [|x l IH] using rev_ind; [reflexivity|].
  rewrite dedup_snoc, !List.filter_app, IH. simpl. unfold keeps.
  destruct (bears k x) eqn:Eb.
  - apply bears_eq in Eb. rewrite Eb, Hk. simpl.
    destruct (existsb (bears k) l) eqn:Ee; simpl.
    + destruct (List.filter (bears k) l) as [|y f] eqn:Ef.
      * apply filter_bears_nil in Ef. congruence.
      * reflexivity.
    + apply filter_bears_nil in Ee. rewrite Ee. simpl.
      rewrite (proj2 (bears_eq k x) Eb). reflexivity.
  - rewrite app_nil_r.
    assert (List.filter (bears k) (if is_empty (unique_key_of x)
              || negb (existsb (bears (unique_key_of x)) l) then [x] else []) = []) as ->.
    { destruct (_ || _); simpl; [rewrite Eb|]; reflexivity. }
    rewrite app_nil_r. reflexivity.
Qed.

Lemma dedup_keeps_empty_keys (l : list food_record) :
  List.filter (bears "") (dedup l) = List.filter (bears "") l.
Proof.
  induction l as [|x l IH] using rev_ind; [reflexivity|].
  rewrite dedup_snoc, !List.filter_app, IH. f_equal. unfold keeps.
  destruct (bears "" x) eqn:Eb; simpl; rewrite Eb.
  - apply bears_eq in Eb. rewrite Eb. simpl. rewrite (proj2 (bears_eq "" x) Eb). reflexivity.
  - destruct (_ || _); simpl; [rewrite Eb|]; reflexivity.
Qed.

(** *** Lists without a repeated key *)
Lemma nonempty_keys_snoc (l : list food_record) (x : food_record) :
  nonempty_keys (l ++ [x])
  = nonempty_keys l ++ (if is_empty (unique_key_of x) then [] else [unique_key_of x]).
Proof.
  unfold nonempty_keys. rewrite map_app, List.filter_app. simpl.
  destruct (is_empty (unique_key_of x)); reflexivity.
Qed.

Lemma nonempty_keys_In (l : list food_record) (k : string) :
  In k (nonempty_keys l) <-> is_empty k = false /\ In k (map unique_key_of l).
Proof.
  unfold nonempty_keys. rewrite filter_In, negb_true_iff. tauto.
Qed.

Lemma distinct_keys_snoc (l : list food_record) (x : food_record) :
  distinct_keys (l ++ [x]) <-> distinct_keys l /\ keeps l x = true.
Proof.
  unfold distinct_keys, keeps. rewrite nonempty_keys_snoc.
  destruct (is_empty (unique_key_of x)) eqn:Ee; simpl.
  - rewrite app_nil_r. tauto.
  - rewrite negb_true_iff. split.
    + intros H. apply NoDup_app in H as (H1 & H2 & _). split; [exact H1|].
      destruct (existsb _ l) eqn:Eb; [|reflexivity].
      apply existsb_bears in Eb. exfalso. apply (H2 (unique_key_of x)).
      * apply list_elem_of_In, nonempty_keys_In. split; assumption.
      * apply list_elem_of_In. left. reflexivity.
    + intros [H1 H2]. apply NoDup_app. split; [exact H1|]. split.
      * intros k Hk Hx. apply list_elem_of_In in Hk, Hx. destruct Hx as [<-|[]].
        apply nonempty_keys_In in Hk as [_ Hk]. apply existsb_bears in Hk. congruence.
      * apply NoDup_singleton.
Qed.

Lemma dedup_distinct_id (l : list food_record) : distinct_keys l -> dedup l = l.
Proof.
  induction l as [|x l IH] using rev_ind; [reflexivity|].
  intros H. apply distinct_keys_snoc in H as [H1 H2].
  rewrite dedup_snoc, H2, (IH H1). reflexivity.
Qed.

Lemma keeps_sublist (l l' : list food_record) (x : food_record) :
  sublist l' l -> keeps l x = true -> keeps l' x = true.
Proof.
  unfold keeps. intros Hs H. apply orb_true_iff in H as [H|H]; [rewrite H; reflexivity|].
  apply orb_true_iff. right. apply negb_true_iff. apply negb_true_iff in H.
  destruct (existsb _ l') eqn:E; [|reflexivity].
  apply existsb_exists in E as (y & Hy & Hb).
  rewrite <- H. symmetry. apply existsb_exists. exists y. split; [|exact Hb].
  apply list_elem_of_In. eapply elem_of_sublist; [|exact Hs]. apply list_elem_of_In, Hy.
Qed.

Lemma dedup_distinct (l : list food_record) : distinct_keys (dedup l).
Proof.
  induction l as [|x l IH] using rev_ind; [constructor|].
  rewrite dedup_snoc. destruct (keeps l x) eqn:Ek.
  - apply distinct_keys_snoc. split; [exact IH|].
    apply (keeps_sublist l); [apply dedup_sublist | exact Ek].
  - rewrite app_nil_r. exact IH.
Qed.

Lemma distinct_keys_perm (l l' : list food_record) :
  Permutation l l' -> distinct_keys l -> distinct_keys l'.
Proof.
  unfold distinct_keys, nonempty_keys. intros Hp.
  assert (Permutation (List.filter (fun k => negb (is_empty k)) (map unique_key_of l))
                      (List.filter (fun k => negb (is_empty k)) (map unique_key_of l'))) as H.
  { clear -Hp. induction Hp; simpl.
    - constructor.
    - destruct (negb _); [constructor|]; assumption.
    - destruct (negb (is_empty (unique_key_of x))), (negb (is_empty (unique_key_of y)));
        try reflexivity. constructor.
    - etransitivity; eassumption. }
  intros Hn. rewrite <- H. exact Hn.
Qed.

(** *** The sort *)
Lemma get_sort_key_unique_key (item : food_record) : get_sort_key item = unique_key_of item.
Proof. reflexivity. Qed.

Lemma key_le_refl (a : food_record) : key_le a a.
Proof. apply str_ltb_irrefl. Qed.

Lemma key_le_trans (a b c : food_record) : key_le a b -> key_le b c -> key_le a c.
Proof.
  unfold key_le. intros Hab Hbc.
  destruct (str_ltb (get_sort_key c) (get_sort_key a)) eqn:Hca; [|reflexivity].
  destruct (str_ltb (get_sort_key a) (get_sort_key b)) eqn:Hlt.
  - rewrite (str_ltb_trans _ _ _ Hca Hlt) in Hbc. discriminate.
  - rewrite <- (str_ltb_total _ _ Hlt Hab) in Hbc. congruence.
Qed.

Lemma key_le_antisym (a b : food_record) :
  key_le a b -> key_le b a -> get_sort_key a = get_sort_key b.
Proof. unfold key_le. intros Hab Hba. apply str_ltb_total; assumption. Qed.

Lemma insert_sorted_perm (x : food_record) (l : list food_record) :
  Permutation (x :: l) (insert_sorted x l).
Proof.
  induction l as [|y l IH]; simpl; [reflexivity|].
  destruct (str_ltb _ _); [|reflexivity].
  rewrite perm_swap. constructor. exact IH.
Qed.

Lemma sort_by_key_perm (l : list food_record) : Permutation l (sort_by_key l).
Proof.
  induction l as [|x l IH]; simpl; [reflexivity|].
  rewrite <- insert_sorted_perm. constructor. exact IH.
Qed.

Lemma insert_sorted_sorted (x : food_record) (l : list food_record) :
  StronglySorted key_le l -> StronglySorted key_le (insert_sorted x l).
Proof.
  induction l as [|y l IH]; simpl; intros Hs.
  - repeat constructor.
  - apply StronglySorted_inv in Hs as [Hl Hy].
    destruct (str_ltb (get_sort_key y) (get_sort_key x)) eqn:Hlt.
    + constructor; [apply IH, Hl|].
      rewrite <- insert_sorted_perm. constructor; [|exact Hy].
      apply str_ltb_asym, Hlt.
    + constructor; [constructor; assumption|].
      constructor; [exact Hlt|].
      eapply Forall_impl; [exact Hy|]. intros z Hz. eapply key_le_trans; [exact Hlt | exact Hz].
Qed.

Lemma sort_by_key_sorted (l : list food_record) : StronglySorted key_le (sort_by_key l).
Proof.
  induction l as [|x l IH]; simpl; [constructor | apply insert_sorted_sorted, IH].
Qed.

Lemma bears_lt_differ (k : string) (x y : food_record) :
  str_ltb (get_sort_key y) (get_sort_key x) = true -> bears k x = true -> bears k y = false.
Proof.
  intros Hlt Hx. destruct (bears k y) eqn:Hy; [|reflexivity].
  apply bears_eq in Hx, Hy.
  change (str_ltb (unique_key_of y) (unique_key_of x) = true) in Hlt.
  rewrite Hx, Hy, str_ltb_irrefl in Hlt.
  discriminate.
Qed.

Lemma insert_sorted_stable (k : string) (x : food_record) (l : list food_record) :
  List.filter (bears k) (insert_sorted x l) = List.filter (bears k) (x :: l).
Proof.
  induction l as [|y l IH]; [reflexivity|].
  simpl insert_sorted. destruct (str_ltb _ _) eqn:Hlt; [|reflexivity].
  simpl in *. rewrite IH.
  destruct (bears k x) eqn:Hx; [|reflexivity].
  rewrite (bears_lt_differ k x y Hlt Hx). reflexivity.
Qed.

Lemma sort_by_key_stable (k : string) (l : list food_record) :
  List.filter (bears k) (sort_by_key l) = List.filter (bears k) l.
Proof.
  induction l as [|x l IH]; [reflexivity|].
  simpl sort_by_key. rewrite insert_sorted_stable. simpl. rewrite IH. reflexivity.
Qed.

Lemma sort_by_key_sorted_id (l : list food_record) :
  StronglySorted key_le l -> sort_by_key l = l.
Proof.
  induction l as [|x l IH]; [reflexivity|].
  intros Hs. apply StronglySorted_inv in Hs as [Hl Hx].
  simpl. rewrite (IH Hl). destruct l as [|y l]; [reflexivity|].
  simpl. apply Forall_inv in Hx. unfold key_le in Hx. rewrite Hx. reflexivity.
Qed.

(** *** The stable arrangement is unique

    Two lists sorted by key that agree, key by key, on the records bearing
    the key and on their order are the same list: a stable sort has one
    possible output, the one [sort_by_key] computes. *)
Lemma filter_bears_head (x : food_record) (l : list food_record) :
  List.filter (bears (unique_key_of x)) (x :: l) = x :: List.filter (bears (unique_key_of x)) l.
Proof. simpl. rewrite (proj2 (bears_eq _ x) eq_refl). reflexivity. Qed.

Lemma sorted_head_least (x y : food_record) (l : list food_record) :
  StronglySorted key_le (x :: l) -> In y (x :: l) -> key_le x y.
Proof.
  intros Hs [<-|Hy]; [apply key_le_refl|].
  apply StronglySorted_inv in Hs as [_ Hx]. rewrite Forall_forall in Hx.
  apply Hx, list_elem_of_In, Hy.
Qed.

Lemma filter_head_In (k : string) (x : food_record) (f l : list food_record) :
  List.filter (bears k) l = x :: f -> In x l /\ unique_key_of x = k.
Proof.
  intros H. assert (In x (List.filter (bears k) l)) as Hin by (rewrite H; left; reflexivity).
  apply filter_In in Hin as [H1 H2]. split; [exact H1 | apply bears_eq, H2].
Qed.

Lemma stable_sort_unique (l1 l2 : list food_record) :
  StronglySorted key_le l1 -> StronglySorted key_le l2 ->
  (forall k, List.filter (bears k) l1 = List.filter (bears k) l2) ->
  l1 = l2.
Proof.
  revert l2; induction l1 as [|x l1 IH]; intros [|y l2] H1 H2 Hf.
  - reflexivity.
  - specialize (Hf (unique_key_of y)). rewrite filter_bears_head in Hf. discriminate.
  - specialize (Hf (unique_key_of x)). rewrite filter_bears_head in Hf. discriminate.
  - assert (unique_key_of x = unique_key_of y) as Hk.
    { pose proof (Hf (unique_key_of x)) as Hx. pose proof (Hf (unique_key_of y)) as Hy.
      rewrite filter_bears_head in Hx. rewrite (filter_bears_head y) in Hy.
      symmetry in Hx. apply filter_head_In in Hx as [Hx _], Hy as [Hy _].
      apply (key_le_antisym x y).
      - apply (sorted_head_least x y l1 H1 Hy).
      - apply (sorted_head_least y x l2 H2 Hx). }
    pose proof (Hf (unique_key_of x)) as Hx.
    rewrite filter_bears_head, Hk, filter_bears_head in Hx. injection Hx as -> Hx.
    f_equal. apply StronglySorted_inv in H1 as [H1 _], H2 as [H2 _].
    apply IH; [exact H1 | exact H2 |]. intros k.
    destruct (bears k y) eqn:Eb.
    + apply bears_eq in Eb. subst k. exact Hx.
    + specialize (Hf k). simpl in Hf. rewrite Eb in Hf. exact Hf.
Qed.

(** C5: the derived key is the stripped, lower-cased [searchKey] when that
    is not empty and the stripped, lower-cased [name] otherwise; the
    deduplicated list keeps the input order; of the records that bear a given
    non-empty key it keeps exactly the first; it keeps every record whose key
    is empty; so it is the list of first occurrences the policy describes. *)
Theorem dedup_keeps_first_occurrences (all_foods : list food_record) :
  (forall item,
      unique_key_of item
      = let key := lower (strip (default "" (searchKey item))) in
        if is_empty key then lower (strip (default "" (name item))) else key)
  /\ sublist (dedup all_foods) all_foods
  /\ (forall k, is_empty k = false ->
        List.filter (bears k) (dedup all_foods) = firstn 1 (List.filter (bears k) all_foods))
  /\ List.filter (bears "") (dedup all_foods) = List.filter (bears "") all_foods
  /\ dedup all_foods = first_occurrences [] all_foods.
Proof.
  split; [reflexivity|]. split; [apply dedup_sublist|].
  split; [intros k Hk; apply dedup_first_of_key, Hk|].
  split; [apply dedup_keeps_empty_keys|].
  apply (dedup_app_first_occurrences [] all_foods).
Qed.

(** The policy on the collections of the specification's end-to-end case,
    and on two records that have neither [searchKey] nor [name]. *)
Example dedup_cases :
  let rec n k := {| name := n; searchKey := k; record_fdcId := None; category := Some "Fruits";
                    record_calories := None; record_protein := None;
                    record_carbs := None; record_fat := None |} in
  master_foods [rec (Some "Banana") (Some "banana")] [rec (Some "BANANA") (Some "banana")]
               [rec (Some "Apple") None]
  = [rec (Some "Apple") None; rec (Some "Banana") (Some "banana")]
  /\ dedup [rec None None; rec (Some " ") (Some ""); rec None None]
     = [rec None None; rec (Some " ") (Some ""); rec None None].
Proof. vm_compute. split; reflexivity. Qed.

(** C9: the sort orders the records by their key, ascending in the
    lexicographic order of strings ([str_ltb_lexicographic]); it rearranges
    its input; records that bear the same key, the empty key included, keep
    their relative order; and the key is the derived key of the
    deduplication.  The merged catalog is the deduplicated list sorted so. *)
Theorem final_sort_stable_ascending (l : list food_record) :
  Permutation l (sort_by_key l)
  /\ StronglySorted key_le (sort_by_key l)
  /\ (forall k, List.filter (bears k) (sort_by_key l) = List.filter (bears k) l)
  /\ (forall item, get_sort_key item = unique_key_of item)
  /\ (forall all_foods, merge all_foods = sort_by_key (dedup all_foods)).
Proof.
  split; [apply sort_by_key_perm|]. split; [apply sort_by_key_sorted|].
  split; [intros k; apply sort_by_key_stable|]. split; reflexivity.
Qed.

(** C8: merging the merged catalog again changes nothing, whether the
    catalog is read as one list or as the first of the three collections. *)
Theorem merge_idempotent (all_foods : list food_record) :
  merge (merge all_foods) = merge all_foods
  /\ forall local_foods fndds_added fndds_manual,
       master_foods (master_foods local_foods fndds_added fndds_manual) [] []
       = master_foods local_foods fndds_added fndds_manual.
Proof.
  assert (forall l, merge (merge l) = merge l) as Hidem.
  { intros l. unfold merge at 1.
    rewrite (dedup_distinct_id (merge l)).
    - apply sort_by_key_sorted_id, sort_by_key_sorted.
    - apply (distinct_keys_perm (dedup l)); [apply sort_by_key_perm | apply dedup_distinct]. }
  split; [apply Hidem|]. intros local_foods fndds_added fndds_manual.
  unfold master_foods. rewrite !app_nil_r. apply Hidem.
Qed.

End MergerFacts.

(** ** Normal forms of text *)

Module NormalFormFacts.

Import Extractor TextFacts.

Ltac each_char c := destruct c as [[] [] [] [] [] [] [] []]; vm_compute; reflexivity.

Lemma lower_char_idem (c : ascii) : lower_char (lower_char c) = lower_char c.
Proof. each_char c. Qed.

Lemma is_space_lower_char (c : ascii) : is_space (lower_char c) = is_space c.
Proof. each_char c. Qed.

Lemma sub_char_lower_is_lower (c : ascii) :
  lower_char (sub_char (lower_char c)) = sub_char (lower_char c).
Proof. each_char c. Qed.

Lemma sub_char_lower_is_clean (c : ascii) :
  let c' := sub_char (lower_char c) in is_word c' || is_space c' = true.
Proof. each_char c. Qed.

Lemma map_chars_fixed (f : ascii -> ascii) (s : string) :
  all_chars (fun c => Ascii.eqb (f c) c) s = true -> map_chars f s = s.
Proof.
  induction s as [|c s IH]; simpl; [reflexivity|].
  intros H. apply andb_true_iff in H as [Hc Hs]. apply Ascii.eqb_eq in Hc.
  rewrite Hc, (IH Hs). reflexivity.
Qed.

Lemma all_chars_impl (p q : ascii -> bool) (s : string) :
  (forall c, p c = true -> q c = true) -> all_chars p s = true -> all_chars q s = true.
Proof.
  intros Hpq. induction s as [|c s IH]; simpl; [reflexivity|].
  intros H. apply andb_true_iff in H as [Hc Hs]. rewrite (Hpq c Hc), (IH Hs). reflexivity.
Qed.

Lemma all_chars_lstrip (p : ascii -> bool) (s : string) :
  all_chars p s = true -> all_chars p (lstrip s) = true.
Proof.
  induction s as [|c s IH]; simpl; [reflexivity|].
  intros H. destruct (is_space c); [|exact H].
  apply andb_true_iff in H as [_ Hs]. apply IH, Hs.
Qed.

Lemma all_chars_rstrip (p : ascii -> bool) (s : string) :
  all_chars p s = true -> all_chars p (rstrip s) = true.
Proof.
  induction s as [|c s IH]; simpl; [reflexivity|].
  intros H. apply andb_true_iff in H as [Hc Hs]. specialize (IH Hs).
  destruct (rstrip s) as [|d r].
  - destruct (is_space c); simpl; [reflexivity | rewrite Hc; reflexivity].
  - simpl in *. rewrite Hc. exact IH.
Qed.

Lemma all_chars_strip (p : ascii -> bool) (s : string) :
  all_chars p s = true -> all_chars p (strip s) = true.
Proof. intros H. apply all_chars_rstrip, all_chars_lstrip, H. Qed.

Lemma rstrip_idem (s : string) : rstrip (rstrip s) = rstrip s.
Proof.
  induction s as [|c s IH]; simpl; [reflexivity|].
  destruct (rstrip s) as [|d r] eqn:E.
  - destruct (is_space c) eqn:Ec; simpl; [reflexivity | rewrite Ec; reflexivity].
  - change (rstrip (String c (String d r))) with
      (match rstrip (String d r) with
       | EmptyString => if is_space c then EmptyString else String c EmptyString
       | r' => String c r'
       end).
    rewrite IH. reflexivity.
Qed.

Lemma starts_clean_lstrip (s : string) : starts_clean (lstrip s) = true.
Proof.
  induction s as [|c s IH]; simpl; [reflexivity|].
  destruct (is_space c) eqn:E; [exact IH | simpl; rewrite E; reflexivity].
Qed.

Lemma lstrip_starts_clean (s : string) : starts_clean s = true -> lstrip s = s.
Proof.
  destruct s as [|c s]; simpl; [reflexivity|].
  intros H. apply negb_true_iff in H. rewrite H. reflexivity.
Qed.

Lemma starts_clean_rstrip (s : string) : starts_clean s = true -> starts_clean (rstrip s) = true.
Proof.
  destruct s as [|c s]; simpl; [reflexivity|].
  intros H. destruct (rstrip s); [|exact H].
  apply negb_true_iff in H. rewrite H. simpl. rewrite H. reflexivity.
Qed.

Lemma strip_idem (s : string) : strip (strip s) = strip s.
Proof.
  unfold strip.
  rewrite (lstrip_starts_clean (rstrip (lstrip s))).
  - apply rstrip_idem.
  - apply starts_clean_rstrip, starts_clean_lstrip.
Qed.

Lemma lstrip_map_chars (f : ascii -> ascii) (s : string) :
  (forall c, is_space (f c) = is_space c) -> lstrip (map_chars f s) = map_chars f (lstrip s).
Proof.
  intros Hf. induction s as [|c s IH]; simpl; [reflexivity|].
  rewrite Hf. destruct (is_space c); [exact IH | reflexivity].
Qed.

Lemma rstrip_map_chars (f : ascii -> ascii) (s : string) :
  (forall c, is_space (f c) = is_space c) -> rstrip (map_chars f s) = map_chars f (rstrip s).
Proof.
  intros Hf. induction s as [|c s IH]; simpl; [reflexivity|].
  rewrite IH, Hf. destruct (rstrip s); simpl; [destruct (is_space c)|]; reflexivity.
Qed.

Lemma strip_lower (s : string) : strip (lower s) = lower (strip s).
Proof.
  unfold strip, lower.
  rewrite lstrip_map_chars, rstrip_map_chars by apply is_space_lower_char. reflexivity.
Qed.

Lemma lower_idem (s : string) : lower (lower s) = lower s.
Proof.
  unfold lower. induction s as [|c s IH]; simpl; [reflexivity|].
  rewrite lower_char_idem, IH. reflexivity.
Qed.

(** *** normalize_text *)
Lemma normalize_text_unfold (text : string) :
  normalize_text text = strip (map_chars sub_char (lower text)).
Proof. reflexivity. Qed.

Lemma map_chars_compose (f g : ascii -> ascii) (s : string) :
  map_chars f (map_chars g s) = map_chars (fun c => f (g c)) s.
Proof. induction s as [|c s IH]; simpl; [reflexivity | rewrite IH; reflexivity]. Qed.

Lemma all_chars_map (p : ascii -> bool) (f : ascii -> ascii) (s : string) :
  (forall c, p (f c) = true) -> all_chars p (map_chars f s) = true.
Proof.
  intros H. induction s as [|c s IH]; simpl; [reflexivity | rewrite H, IH; reflexivity].
Qed.

Lemma normalize_text_lower (text : string) : lower (normalize_text text) = normalize_text text.
Proof.
  apply map_chars_fixed, all_chars_strip. unfold lower. rewrite map_chars_compose.
  apply all_chars_map. intros c. apply Ascii.eqb_eq, sub_char_lower_is_lower.
Qed.

Lemma normalize_text_clean (text : string) :
  all_chars (fun c => is_word c || is_space c) (normalize_text text) = true.
Proof.
  apply all_chars_strip. unfold lower. rewrite map_chars_compose.
  apply all_chars_map. intros c. apply sub_char_lower_is_clean.
Qed.

Lemma normalize_text_stripped (text : string) : strip (normalize_text text) = normalize_text text.
Proof. apply strip_idem. Qed.

Lemma normalize_text_idem (text : string) :
  normalize_text (normalize_text text) = normalize_text text.
Proof.
  rewrite (normalize_text_unfold (normalize_text text)), normalize_text_lower.
  rewrite (map_chars_fixed sub_char).
  - apply normalize_text_stripped.
  - eapply all_chars_impl; [|apply normalize_text_clean].
    intros c Hc. unfold sub_char. rewrite Hc. apply Ascii.eqb_refl.
Qed.

Lemma lower_nonempty (s : string) : nonempty (lower s) = nonempty s.
Proof. destruct s; reflexivity. Qed.

(** X1: normalized text is in normal form: normalizing it again changes
    nothing, it has no surrounding whitespace, no upper-case letter, and only
    word characters and whitespace. *)
Theorem normalize_text_normal_form (text : string) :
  let n := normalize_text text in
  normalize_text n = n
  /\ strip n = n
  /\ lower n = n
  /\ all_chars (fun c => is_word c || is_space c) n = true.
Proof.
  cbv zeta. split; [apply normalize_text_idem|]. split; [apply normalize_text_stripped|].
  split; [apply normalize_text_lower | apply normalize_text_clean].
Qed.

End NormalFormFacts.

(** ** The strategy ladder of the matcher *)

Module LadderFacts.

Import Extractor TextFacts MatcherFacts FloatFacts NormalFormFacts.

Lemma SFltb_not_above (b x s : spec_float) :
  SFltb b x = false -> SFltb b s = true -> SFltb s x = false.
Proof. destruct b, x, s; sf_order. Qed.

Lemma float_lt_asym (a b : float) : PrimFloat.ltb a b = true -> PrimFloat.ltb b a = false.
Proof.
  intros H. destruct (PrimFloat.ltb b a) eqn:E; [|reflexivity].
  rewrite <- (float_lt_irrefl a). symmetry. apply (float_lt_trans a b a); assumption.
Qed.

Lemma float_not_above (b x s : float) :
  PrimFloat.ltb b x = false -> PrimFloat.ltb b s = true -> PrimFloat.ltb s x = false.
Proof. rewrite !FloatAxioms.ltb_spec. apply SFltb_not_above. Qed.

Lemma py_min_capped (a b : float) : float_gt (py_min a b) b = false.
Proof.
  unfold float_gt, py_min. destruct (PrimFloat.ltb b a) eqn:E; [apply float_lt_irrefl | exact E].
Qed.

Section fuzzy.

Variable extractOne : scorer -> string -> list string -> float -> option (string * float * nat).

Ltac lt_chain :=
  first [ eassumption
        | eapply float_lt_trans; [eassumption | eassumption]
        | eapply float_lt_trans; [eassumption | eapply float_lt_trans; [eassumption | eassumption]] ].

Ltac not_above :=
  first [ apply float_lt_irrefl
        | eassumption
        | apply float_lt_asym; lt_chain
        | eapply float_not_above; [eassumption | lt_chain] ].

Lemma fuzzy_match_best (q : string) (V : list string) :
  match fuzzy_match extractOne q V with
  | Some (c, s) =>
      (exists sc i, extractOne sc q V 60%float = Some (c, s, i))
      /\ float_gt s 0%float = true
      /\ forall sc c' s' i', extractOne sc q V 60%float = Some (c', s', i') ->
                             float_gt s' s = false
  | None =>
      forall sc c' s' i', extractOne sc q V 60%float = Some (c', s', i') ->
                          float_gt s' 0%float = false
  end.
Proof.
  unfold fuzzy_match, consider, float_gt. simpl.
  destruct (extractOne token_set_ratio q V 60%float) as [[[c1 s1] i1]|] eqn:E1;
  destruct (extractOne partial_ratio q V 60%float) as [[[c2 s2] i2]|] eqn:E2;
  destruct (extractOne token_sort_ratio q V 60%float) as [[[c3 s3] i3]|] eqn:E3;
  simpl;
  repeat match goal with
  | |- context [PrimFloat.ltb ?a ?b] =>
      lazymatch a with
      | context [if _ then _ else _] => fail
      | _ => let H := fresh "H" in destruct (PrimFloat.ltb a b) eqn:H; simpl
      end
  end;
  try (intros sc c' s' i' Hsc; destruct sc; rewrite ?E1, ?E2, ?E3 in Hsc;
       try discriminate; injection Hsc as <- <- <-; not_above);
  (split; [eexists _, _; eassumption|]);
  (split;
    [first [ reflexivity | lt_chain
           | exfalso;
             match goal with
             | Hz : PrimFloat.ltb 0%float ?s = false |- _ =>
                 assert (PrimFloat.ltb 0%float s = true) by lt_chain; congruence
             end ]|]);
  intros sc c' s' i' Hsc; destruct sc; rewrite ?E1, ?E2, ?E3 in Hsc;
  try discriminate; injection Hsc as <- <- <-; not_above.
Qed.

End fuzzy.

Lemma find_exists {A : Type} (p : A -> bool) (l : list A) :
  (exists x, In x l /\ p x = true) -> exists x, find p l = Some x.
Proof.
  intros (x & Hin & Hp). destruct (find p l) as [y|] eqn:E; [eexists; reflexivity|].
  rewrite (find_none _ _ E x Hin) in Hp. discriminate.
Qed.

Lemma no_exact_find (D : string) (V : list string) :
  (forall u, In u V -> normalize_text u <> normalize_text D) ->
  find (is_exact (normalize_text D)) V = None.
Proof.
  intros H. apply find_all_false. intros u Hu.
  destruct (is_exact _ u) eqn:E; [|reflexivity].
  apply is_exact_eq in E. destruct (H u Hu). symmetry. exact E.
Qed.

(** X3: when no entry equals the description after normalization and some
    entry is a prefix of the normalized description or extends it, the matcher
    returns the first such entry with score 95, whatever rapidfuzz does. *)
Theorem affix_match_second (D : string) (V : list string) :
  (forall u, In u V -> normalize_text u <> normalize_text D) ->
  (exists v, In v V /\ is_affix (normalize_text D) v = true) ->
  exists pre v post,
    V = pre ++ v :: post
    /\ is_affix (normalize_text D) v = true
    /\ (forall u, In u pre -> is_affix (normalize_text D) u = false)
    /\ forall extractOne, match_whitelist_item extractOne D V = Ok (Some (v, 95%float)).
Proof.
  intros Hexact Haffix.
  destruct (find_exists _ _ Haffix) as [v Hfind].
  destruct (find_first _ _ _ Hfind) as (pre & post & HV & Hv & Hpre).
  exists pre, v, post. repeat split; try assumption.
  intros extractOne. unfold match_whitelist_item.
  rewrite (no_exact_find D V Hexact), Hfind. reflexivity.
Qed.

Lemma affix_match_second_witness :
  exists pre v post,
    ["rice"; "apple pie"; "apple"] = pre ++ v :: post
    /\ is_affix (normalize_text "Apple, raw") v = true
    /\ (forall u, In u pre -> is_affix (normalize_text "Apple, raw") u = false)
    /\ forall extractOne,
         match_whitelist_item extractOne "Apple, raw" ["rice"; "apple pie"; "apple"]
         = Ok (Some (v, 95%float)).
Proof.
  apply (affix_match_second "Apple, raw" ["rice"; "apple pie"; "apple"]).
  - intros u Hu. simpl in Hu. destruct Hu as [<-|[<-|[<-|[]]]]; vm_compute; discriminate.
  - exists "apple". split; [simpl; auto | vm_compute; reflexivity].
Defined.

(** X4: when the first two strategies find nothing and some entry contains
    the normalized description or is contained in it, the matcher returns the
    first such entry; the description is then not empty, so the division is
    defined, and the score [min(len(item)/len(description) * 90, 90)] is never
    above 90. *)
Theorem substring_match_third (D : string) (V : list string) :
  (forall u, In u V -> normalize_text u <> normalize_text D) ->
  (forall u, In u V -> is_affix (normalize_text D) u = false) ->
  (exists v, In v V /\ is_contained (normalize_text D) v = true) ->
  exists pre v post score,
    V = pre ++ v :: post
    /\ is_contained (normalize_text D) v = true
    /\ (forall u, In u pre -> is_contained (normalize_text D) u = false)
    /\ 0 < len (normalize_text D)
    /\ score = py_min (PrimFloat.mul
                         (PrimFloat.div (float_of_nat (len (normalize_text v)))
                                        (float_of_nat (len (normalize_text D))))
                         90%float) 90%float
    /\ float_gt score 90%float = false
    /\ forall extractOne, match_whitelist_item extractOne D V = Ok (Some (v, score)).
Proof.
  intros Hexact Haffix Hcont.
  destruct (find_exists _ _ Hcont) as [v Hfind].
  destruct (find_first _ _ _ Hfind) as (pre & post & HV & Hv & Hpre).
  exists pre, v, post. eexists. split; [exact HV|]. split; [exact Hv|]. split; [exact Hpre|].
  split.
  { destruct (len (normalize_text D)) eqn:Hlen; [|lia].
    apply len_zero in Hlen. destruct Hcont as (u & Hu & _).
    specialize (Haffix u Hu). rewrite Hlen, is_affix_blank in Haffix. discriminate. }
  split; [reflexivity|]. split; [apply py_min_capped|].
  intros extractOne. apply substring_score_formula; [|apply find_all_false, Haffix|exact Hfind].
  apply no_exact_find, Hexact.
Qed.

Lemma substring_match_third_witness :
  exists pre v post score,
    ["rice"; "breast"; "chicken"] = pre ++ v :: post
    /\ is_contained (normalize_text "Grilled chicken breast") v = true
    /\ (forall u, In u pre -> is_contained (normalize_text "Grilled chicken breast") u = false)
    /\ 0 < len (normalize_text "Grilled chicken breast")
    /\ score = py_min (PrimFloat.mul
                         (PrimFloat.div (float_of_nat (len (normalize_text v)))
                                        (float_of_nat (len (normalize_text "Grilled chicken breast"))))
                         90%float) 90%float
    /\ float_gt score 90%float = false
    /\ forall extractOne,
         match_whitelist_item extractOne "Grilled chicken breast" ["rice"; "breast"; "chicken"]
         = Ok (Some (v, score)).
Proof.
  apply (substring_match_third "Grilled chicken breast" ["rice"; "breast"; "chicken"]).
  - intros u Hu. simpl in Hu. destruct Hu as [<-|[<-|[<-|[]]]]; vm_compute; discriminate.
  - intros u Hu. simpl in Hu. destruct Hu as [<-|[<-|[<-|[]]]]; vm_compute; reflexivity.
  - exists "chicken". split; [simpl; auto | vm_compute; reflexivity].
Defined.

Section membership.
Variable extractOne : scorer -> string -> list string -> float -> option (string * float * nat).

(** X6: provided rapidfuzz returns one of the choices it is given, an item
    the matcher returns is an entry of the whitelist. *)
Theorem matched_item_in_whitelist (D : string) (V : list string) (item : string) (score : float) :
  (forall sc q choices cutoff c s i,
      extractOne sc q choices cutoff = Some (c, s, i) -> In c choices) ->
  match_whitelist_item extractOne D V = Ok (Some (item, score)) ->
  In item V.
Proof.
  intros Hlib. unfold match_whitelist_item.
  destruct (find (is_exact _) V) as [v|] eqn:H1.
  { intros H. apply find_some in H1 as [Hin _].
    apply (f_equal (fun r => match r with Ok (Some (x, _)) => x | _ => item end)) in H.
    simpl in H. subst v. exact Hin. }
  destruct (find (is_affix _) V) as [v|] eqn:H2.
  { intros H. apply find_some in H2 as [Hin _].
    apply (f_equal (fun r => match r with Ok (Some (x, _)) => x | _ => item end)) in H.
    simpl in H. subst v. exact Hin. }
  destruct (find (is_contained _) V) as [v|] eqn:H3.
  { apply find_some in H3 as [Hin _].
    destruct (contains_score _ v); [|discriminate]. intros H.
    apply (f_equal (fun r => match r with Ok (Some (x, _)) => x | _ => item end)) in H.
    simpl in H. subst v. exact Hin. }
  intros H.
  pose proof (fuzzy_match_best extractOne (normalize_text D) V) as Hbest.
  destruct (fuzzy_match extractOne (normalize_text D) V) as [[c s]|]; [|discriminate].
  destruct Hbest as ((sc & i & Hsc) & _).
  apply (f_equal (fun r => match r with Ok (Some (x, _)) => x | _ => item end)) in H.
  simpl in H. subst c. apply (Hlib _ _ _ _ _ _ _ Hsc).
Qed.
End membership.

Lemma matched_item_in_whitelist_witness :
  In "rice" ["rice"; "apple"].
Proof.
  apply (matched_item_in_whitelist first_choice_fuzzy "Kiwi" ["rice"; "apple"] "rice" 70%float).
  - intros sc q choices cutoff c s i H. destruct choices as [|x l]; [discriminate|].
    apply (f_equal (fun r => match r with Some (x, _, _) => x | None => c end)) in H.
    simpl in H. subst c. left. reflexivity.
  - vm_compute. reflexivity.
Defined.

(** X5: when the first three strategies find nothing, the result is the fuzzy
    one: a choice one of the three scorers returned, with a score above 0 that
    no scorer's result exceeds; and no match when no scorer returned a score
    above 0. *)
Theorem fuzzy_tier_takes_best extractOne (D : string) (V : list string) :
  (forall u, In u V -> is_exact (normalize_text D) u = false) ->
  (forall u, In u V -> is_affix (normalize_text D) u = false) ->
  (forall u, In u V -> is_contained (normalize_text D) u = false) ->
  match_whitelist_item extractOne D V = Ok (fuzzy_match extractOne (normalize_text D) V)
  /\ match fuzzy_match extractOne (normalize_text D) V with
     | Some (c, s) =>
         (exists sc i, extractOne sc (normalize_text D) V 60%float = Some (c, s, i))
         /\ float_gt s 0%float = true
         /\ forall sc c' s' i',
              extractOne sc (normalize_text D) V 60%float = Some (c', s', i') ->
              float_gt s' s = false
     | None =>
         forall sc c' s' i',
           extractOne sc (normalize_text D) V 60%float = Some (c', s', i') ->
           float_gt s' 0%float = false
     end.
Proof.
  intros H1 H2 H3. split; [|apply fuzzy_match_best].
  unfold match_whitelist_item. rewrite !find_all_false by assumption. reflexivity.
Qed.

Lemma fuzzy_tier_takes_best_witness :
  match_whitelist_item first_choice_fuzzy "Kiwi" ["rice"; "apple"]
  = Ok (Some ("rice", 70%float)).
Proof.
  refine (proj1 (fuzzy_tier_takes_best first_choice_fuzzy "Kiwi" ["rice"; "apple"] _ _ _));
    intros u Hu; simpl in Hu; destruct Hu as [<-|[<-|[]]]; vm_compute; reflexivity.
Defined.

(** X7: the matcher raises on no description and no whitelist, although
    strategy 3 divides by the length of the normalized description and that
    division raises when the description is empty: strategy 2 returns first. *)
Theorem match_whitelist_item_never_raises extractOne (D : string) (V : list string) :
  match_whitelist_item extractOne D V <> ZeroDivisionError
  /\ forall item, contains_score "" item = ZeroDivisionError.
Proof.
  split; [|reflexivity].
  destruct (match_whitelist_item_returns extractOne D V) as [r ->]. discriminate.
Qed.

(** X2: the matcher sees a description through its normalization only:
    normalizing the description beforehand gives the same result. *)
Theorem match_on_normalized_description extractOne (D : string) (V : list string) :
  match_whitelist_item extractOne (normalize_text D) V = match_whitelist_item extractOne D V.
Proof. unfold match_whitelist_item. rewrite normalize_text_idem. reflexivity. Qed.

End LadderFacts.

(** ** The classifier as a rule table *)

Module RuleTableFacts.

Import Extractor TextFacts ClassifierFacts NormalFormFacts.

Lemma map_category_first_rule (description whitelist_item : string) :
  map_category description whitelist_item = first_rule rules (lower whitelist_item).
Proof.
  unfold map_category, first_rule, rules. cbn [find snd fst].
  repeat match goal with
  | |- context [any_in ?k ?s] =>
      lazymatch k with
      | [_] => fail
      | _ => destruct (any_in k s); [reflexivity|]
      end
  end.
  unfold any_in at 1. cbn [existsb]. rewrite orb_false_r.
  destruct (str_in "pizza" _); reflexivity.
Qed.

Lemma append_cons (c : ascii) (a b : string) :
  String.append (String c a) b = String c (String.append a b).
Proof. reflexivity. Qed.

Lemma append_nil (b : string) : String.append "" b = b.
Proof. reflexivity. Qed.

Lemma prefix_app_iff (x s : string) :
  String.prefix x s = true <-> exists post, s = String.append x post.
Proof.
  revert s; induction x as [|c x IH]; intros s.
  - split; [intros _; exists s; reflexivity | intros _; apply prefix_empty].
  - destruct s as [|d s]; simpl.
    + split; [discriminate | intros [p Hp]; discriminate].
    + destruct (Ascii.ascii_dec c d) as [->|Hne].
      * rewrite IH. split; intros [p Hp]; exists p; rewrite append_cons in *; congruence.
      * split; [discriminate | intros [p Hp]; rewrite append_cons in Hp; congruence].
Qed.

Lemma str_in_app_iff (x s : string) :
  str_in x s = true <-> exists pre post, s = String.append pre (String.append x post).
Proof.
  induction s as [|d s IH]; simpl; rewrite orb_true_iff.
  - split.
    + intros [H|H]; [|discriminate]. apply (prefix_app_iff x "") in H as [p Hp].
      exists "", p. exact Hp.
    + intros ([|c pre] & post & H); [|discriminate]. left.
      apply (prefix_app_iff x ""). exists post. exact H.
  - rewrite IH, (prefix_app_iff x (String d s)). split.
    + intros [[p Hp]|(pre & post & Hp)].
      * exists "", p. exact Hp.
      * exists (String d pre), post. rewrite append_cons, Hp. reflexivity.
    + intros ([|c pre] & post & H).
      * left. exists post. exact H.
      * right. exists pre, post. rewrite append_cons in H. congruence.
Qed.

Lemma append_assoc (a b c : string) :
  String.append (String.append a b) c = String.append a (String.append b c).
Proof.
  induction a as [|x a IH]; [reflexivity|]. rewrite !append_cons, IH. reflexivity.
Qed.

Lemma str_in_trans (a b s : string) :
  str_in a b = true -> str_in b s = true -> str_in a s = true.
Proof.
  rewrite !str_in_app_iff. intros (p1 & q1 & ->) (p2 & q2 & ->).
  exists (String.append p2 p1), (String.append q1 q2).
  rewrite !append_assoc. reflexivity.
Qed.

Lemma find_first_index {A : Type} (p : A -> bool) (l : list A) (i : nat) (x : A) :
  l !! i = Some x -> p x = true ->
  exists i' y, i' <= i /\ l !! i' = Some y /\ find p l = Some y.
Proof.
  revert i; induction l as [|a l IH]; intros i Hi Hp; [destruct i; discriminate|].
  simpl. destruct (p a) eqn:Ha.
  - exists 0, a. split; [lia|]. split; reflexivity.
  - destruct i as [|i]; [simpl in Hi; congruence|].
    destruct (IH i Hi Hp) as (i' & y & Hle & Hy & Hf).
    exists (S i'), y. split; [lia|]. split; assumption.
Qed.

Lemma rules_labels_distinct : NoDup (map fst rules).
Proof. apply (bool_decide_unpack (NoDup (map fst rules))). vm_compute. exact I. Qed.

Lemma first_rule_shadow (text : string) (i j : nat) (ri rj : string * list string) (k0 k : string) :
  rules !! i = Some ri -> rules !! j = Some rj -> i < j ->
  In k0 (snd ri) -> In k (snd rj) ->
  str_in k0 k = true -> str_in k text = true ->
  first_rule rules text <> fst rj.
Proof.
  intros Hi Hj Hlt Hk0 Hk Hsub Hin.
  assert (any_in (snd ri) text = true) as Hfire
    by (apply (any_in_member _ k0); [exact Hk0 | apply (str_in_trans k0 k); assumption]).
  destruct (find_first_index (fun rule => any_in (snd rule) text) rules i ri Hi Hfire)
    as (i' & y & Hle & Hy & Hf).
  unfold first_rule. rewrite Hf. intros Heq.
  assert (i' = j); [|lia].
  apply (NoDup_lookup (map fst rules) i' j (fst y)); [apply rules_labels_distinct| |].
  - rewrite list_lookup_fmap, Hy. reflexivity.
  - rewrite list_lookup_fmap, Hj, Heq. reflexivity.
Qed.

(** X9: a keyword that contains a keyword of an earlier rule never decides:
    a whitelist item that contains it is not given the label of its rule.  So
    "eggplant" (contains "egg") is never "Vegetables", "popcorn" (contains
    "corn") never "Snacks", "donuts" (contains "nuts") never "Desserts". *)
Theorem shadowed_keyword_never_decides (description whitelist_item : string) (i j : nat)
    (ri rj : string * list string) (k0 k : string) :
  rules !! i = Some ri -> rules !! j = Some rj -> i < j ->
  In k0 (snd ri) -> In k (snd rj) ->
  str_in k0 k = true -> str_in k (lower whitelist_item) = true ->
  map_category description whitelist_item <> fst rj.
Proof. rewrite map_category_first_rule. apply first_rule_shadow. Qed.

Lemma shadowed_keyword_never_decides_witness :
  map_category "Eggplant, raw" "Eggplant" <> "Vegetables"
  /\ map_category "Snacks, popcorn, air-popped" "popcorn" <> "Snacks"
  /\ map_category "Doughnuts, cake-type" "donuts" <> "Desserts".
Proof.
  split; [|split].
  - apply (shadowed_keyword_never_decides "Eggplant, raw" "Eggplant" 4 6
             ("Protein - Eggs", egg_keywords) ("Vegetables", vegetable_keywords)
             "egg" "eggplant"); try reflexivity; try lia; simpl; tauto.
  - apply (shadowed_keyword_never_decides "Snacks, popcorn, air-popped" "popcorn" 6 12
             ("Vegetables", vegetable_keywords) ("Snacks", snack_keywords)
             "corn" "popcorn"); try reflexivity; try lia; simpl; tauto.
  - apply (shadowed_keyword_never_decides "Doughnuts, cake-type" "donuts" 12 14
             ("Snacks", snack_keywords) ("Desserts", dessert_keywords)
             "nuts" "donuts"); try reflexivity; try lia; simpl; tauto.
Defined.

(** X8: [map_category] is the first-firing rule of the table [rules] on the
    lower-cased whitelist item; its result is one of the eighteen labels of
    the table or "Other", and it is "Other" exactly when no rule fires. *)
Theorem map_category_labels (description whitelist_item : string) :
  map_category description whitelist_item = first_rule rules (lower whitelist_item)
  /\ In (map_category description whitelist_item) (map fst rules ++ ["Other"])
  /\ (map_category description whitelist_item = "Other" <->
      forall rule, In rule rules -> any_in (snd rule) (lower whitelist_item) = false).
Proof.
  split; [apply map_category_first_rule|]. rewrite map_category_first_rule. unfold first_rule.
  destruct (find _ rules) as [rule|] eqn:Hf.
  - apply find_some in Hf as [Hin Hfire]. split.
    + apply in_app_iff. left. apply in_map, Hin.
    + split.
      * intros Hother. exfalso.
        assert (In "Other" (map fst rules)) as H by (rewrite <- Hother; apply in_map, Hin).
        revert H. clear. vm_compute. intuition discriminate.
      * intros Hnone. rewrite (Hnone rule Hin) in Hfire. discriminate.
  - split; [apply in_app_iff; right; left; reflexivity|].
    split; [|reflexivity]. intros _ rule Hin. apply (find_none _ _ Hf rule Hin).
Qed.

(** X10: the category does not depend on the letter case of the whitelist
    item. *)
Theorem map_category_case_insensitive (d d' w : string) :
  map_category d (lower w) = map_category d' w.
Proof. rewrite !map_category_first_rule, lower_idem. reflexivity. Qed.

End RuleTableFacts.

(** ** What the pass leaves *)

Module PassOutcomeFacts.

Import Extractor TextFacts MatcherFacts PassFacts.

Lemma extract_nutrients_fold (item : food_item) :
  extract_nutrients item
  = {| calories := last_amount "208" (foodNutrients item);
       protein := last_amount "203" (foodNutrients item);
       carbs := last_amount "205" (foodNutrients item);
       fat := last_amount "204" (foodNutrients item) |}.
Proof.
  unfold extract_nutrients. generalize (foodNutrients item) as l. clear item.
  induction l as [|n l IH] using rev_ind; [reflexivity|].
  rewrite fold_left_app. simpl. rewrite IH. unfold last_amount, set_nutrient.
  rewrite rev_app_distr. simpl.
  destruct (String.eqb (number n) "208") eqn:E208.
  { apply String.eqb_eq in E208. rewrite E208. reflexivity. }
  destruct (String.eqb (number n) "203") eqn:E203.
  { apply String.eqb_eq in E203. rewrite E203. reflexivity. }
  destruct (String.eqb (number n) "205") eqn:E205.
  { apply String.eqb_eq in E205. rewrite E205. reflexivity. }
  destruct (String.eqb (number n) "204") eqn:E204; reflexivity.
Qed.

(** X11: each of the four nutrients is the amount of the last entry of
    [foodNutrients] that bears its nutrient number, a missing amount included,
    and [None] when no entry bears the number; entries with other numbers
    change nothing. *)
Theorem extract_nutrients_last_wins (item : food_item) :
  extract_nutrients item
  = {| calories := last_amount "208" (foodNutrients item);
       protein := last_amount "203" (foodNutrients item);
       carbs := last_amount "205" (foodNutrients item);
       fat := last_amount "204" (foodNutrients item) |}
  /\ extract_nutrients
       {| description := description item; fdcId := fdcId item;
          foodNutrients :=
            List.filter (fun n => existsb (String.eqb (number n)) ["208"; "203"; "205"; "204"])
                        (foodNutrients item) |}
     = extract_nutrients item.
Proof.
  split; [apply extract_nutrients_fold|].
  unfold extract_nutrients. simpl.
  generalize {| calories := None; protein := None; carbs := None; fat := None |} as acc.
  induction (foodNutrients item) as [|n l IH]; intros acc; [reflexivity|].
  simpl List.filter.
  match goal with |- context [if ?b then _ :: _ else _] => destruct b eqn:E end;
    simpl; [apply IH|].
  repeat (apply orb_false_iff in E as [? E]).
  assert (set_nutrient acc n = acc) as ->; [|apply IH].
  unfold set_nutrient.
  repeat match goal with H : String.eqb _ _ = false |- _ => rewrite H; clear H end.
  reflexivity.
Qed.

Section pass_outcome.
Variable extractOne : scorer -> string -> list string -> float -> option (string * float * nat).
Variable whitelist : list string.

Local Abbreviation match_of := (Extractor.match_of extractOne whitelist).
Local Abbreviation eligible := (Extractor.eligible extractOne whitelist).
Local Abbreviation stores := (Extractor.stores extractOne whitelist).
Local Abbreviation holds_eligible := (Extractor.holds_eligible extractOne whitelist).
Local Abbreviation missing_items := (Extractor.missing_items whitelist).
Local Abbreviation pass_step := (Extractor.pass_step extractOne whitelist).
Local Abbreviation pass_from := (Extractor.pass_from extractOne whitelist).

Lemma stores_eligible (item : food_item) :
  stores item = true <-> exists w s, eligible w item s.
Proof.
  unfold Extractor.stores, Extractor.eligible.
  destruct (match_of item) as [[[w s]|]|] eqn:Hm.
  - rewrite bool_decide_eq_true. split.
    + intros [c Hc]. exists w, s. split; [reflexivity | congruence].
    + intros (w' & s' & _ & Hc). destruct (calories _); [eexists; reflexivity | congruence].
  - split; [discriminate | intros (w & s & H & _); discriminate].
  - split; [discriminate | intros (w & s & H & _); discriminate].
Qed.

Lemma pass_step_skips (m : gmap string (food_item * float * string)) (item : food_item) :
  stores item = false -> pass_step m item = Ok m.
Proof.
  unfold Extractor.stores, Extractor.pass_step. fold (match_of item).
  destruct (match_whitelist_item_returns extractOne (default "" (description item)) whitelist)
    as [r Hr]. fold (match_of item) in Hr. rewrite Hr.
  destruct r as [[w s]|]; [|reflexivity].
  destruct (calories (extract_nutrients item)); [|reflexivity].
  intros H. apply bool_decide_eq_false in H. destruct H. eexists; reflexivity.
Qed.

Lemma pass_from_filter (m : gmap string (food_item * float * string)) (data : list food_item) :
  pass_from m (List.filter stores data) = pass_from m data.
Proof.
  revert m; induction data as [|x data IH]; intros m; [reflexivity|].
  simpl. destruct (stores x) eqn:Hs.
  - simpl. destruct (pass_step m x); [apply IH | reflexivity].
  - rewrite (pass_step_skips m x Hs). apply IH.
Qed.

Lemma pass_holds_eligible (data : list food_item) :
  exists m, matching_pass extractOne whitelist data = Ok m /\ holds_eligible data m.
Proof.
  unfold matching_pass.
  induction data as [|x data IH] using rev_ind.
  - exists ∅. split; [reflexivity|]. intros w. rewrite lookup_empty. intros item s [].
  - destruct IH as (m & Hm & Hinv).
    rewrite pass_from_snoc, Hm.
    assert (forall w, match m !! w with
      | Some (item, s, d) =>
          In item (data ++ [x]) /\ d = default "" (description item) /\ eligible w item s
      | None => forall item s, In item data -> ~ eligible w item s
      end) as Hkeep.
    { intros w. specialize (Hinv w). destruct (m !! w) as [[[it st] d]|]; [|exact Hinv].
      destruct Hinv as (H1 & H2 & H3). split; [apply in_app_iff; left; exact H1 | tauto]. }
    destruct (stores x) eqn:Hs.
    + apply stores_eligible in Hs as (w0 & s0 & Hel).
      pose proof Hel as [Hr Hcal].
      unfold Extractor.pass_step. fold (match_of x). rewrite Hr.
      destruct (calories (extract_nutrients x)) as [c|]; [|congruence].
      assert (forall w, w <> w0 -> forall s, ~ eligible w x s) as Hother.
      { intros w Hw s He. apply Hw. apply (eligible_entry extractOne whitelist w0 w x s0 s Hr He). }
      assert (forall m',
        (forall w, w <> w0 -> m' !! w = m !! w) ->
        (m' !! w0 = Some (x, s0, default "" (description x)) \/ (m' = m /\ is_Some (m !! w0))) ->
        holds_eligible (data ++ [x]) m') as Hcase.
      { intros m' Hsame Hw0 w. destruct (decide (w = w0)) as [->|Hne].
        - destruct Hw0 as [->|[-> [e He]]].
          + split; [apply in_app_iff; right; left; reflexivity|]. split; [reflexivity | exact Hel].
          + specialize (Hkeep w0). rewrite He in *. exact Hkeep.
        - rewrite (Hsame w Hne). specialize (Hkeep w).
          destruct (m !! w) as [[[it st] d]|]; [exact Hkeep|].
          intros item s Hin. apply in_app_iff in Hin as [Hin|[<-|[]]];
            [apply Hkeep, Hin | apply Hother, Hne]. }
      destruct (m !! w0) as [[[it st] d]|] eqn:Hlook.
      * destruct (float_gt s0 st).
        -- eexists. split; [reflexivity|]. apply Hcase.
           ++ intros w Hne. apply lookup_insert_ne. congruence.
           ++ left. apply lookup_insert_eq.
        -- exists m. split; [reflexivity|]. apply Hcase; [intros; reflexivity|].
           right. split; [reflexivity | eexists; reflexivity].
      * eexists. split; [reflexivity|]. apply Hcase.
        -- intros w Hne. apply lookup_insert_ne. congruence.
        -- left. apply lookup_insert_eq.
    + rewrite (pass_step_skips m x Hs). exists m. split; [reflexivity|].
      intros w. specialize (Hkeep w). destruct (m !! w) as [[[it st] d]|]; [exact Hkeep|].
      intros item s Hin. apply in_app_iff in Hin as [Hin|[<-|[]]]; [apply Hkeep, Hin|].
      intros He. assert (stores x = true) as Ht by (apply stores_eligible; eauto). congruence.
Qed.

(** X12: the pass is not affected by the records it skips: removing the
    records that match nothing or have no calories value beforehand gives the
    same dict. *)
Theorem matching_pass_skips_unstored (data : list food_item) :
  matching_pass extractOne whitelist (List.filter stores data)
  = matching_pass extractOne whitelist data.
Proof. apply pass_from_filter. Qed.

Lemma matches_entry_eligible (w : string) (item : food_item) :
  Extractor.matches_entry extractOne whitelist w item = true <-> exists s, eligible w item s.
Proof.
  unfold Extractor.matches_entry, Extractor.eligible.
  destruct (match_of item) as [[[w' s']|]|] eqn:Hm.
  - rewrite andb_true_iff, String.eqb_eq, bool_decide_eq_true. split.
    + intros [-> [c Hc]]. exists s'. split; [reflexivity | congruence].
    + intros (s & Heq & Hc).
      apply (f_equal (fun r => match r with Ok (Some (x, _)) => x | _ => w end)) in Heq.
      simpl in Heq. split; [exact Heq|].
      destruct (calories _); [eexists; reflexivity | congruence].
  - split; [discriminate | intros (s & H & _); discriminate].
  - split; [discriminate | intros (s & H & _); discriminate].
Qed.

(** X13: after the pass, [missing_items] is the whitelist, in its order and
    with its repetitions, without the entries that some record of the data
    matched while carrying a calories value; an entry is in it exactly when
    it is in the whitelist and no such record exists. *)
Theorem missing_items_unmatched (data : list food_item) :
  exists m,
    matching_pass extractOne whitelist data = Ok m
    /\ missing_items m
       = List.filter
           (fun w => negb (existsb (Extractor.matches_entry extractOne whitelist w) data))
           whitelist
    /\ (forall w item,
          Extractor.matches_entry extractOne whitelist w item = true <->
          exists s, eligible w item s)
    /\ forall w, In w (missing_items m) <->
                 In w whitelist /\ forall item s, In item data -> ~ eligible w item s.
Proof.
  destruct (pass_holds_eligible data) as (m & Hm & Hinv). exists m. split; [exact Hm|].
  split; [|split; [apply matches_entry_eligible|]].
  - unfold Extractor.missing_items. apply List.filter_ext. intros w. specialize (Hinv w).
    destruct (m !! w) as [[[it st] d]|] eqn:Hlook.
    + destruct Hinv as (H1 & _ & H3).
      rewrite bool_decide_eq_false_2 by discriminate.
      symmetry. apply negb_false_iff, existsb_exists. exists it. split; [exact H1|].
      apply matches_entry_eligible. exists st. exact H3.
    + rewrite bool_decide_eq_true_2 by reflexivity.
      symmetry. apply negb_true_iff.
      destruct (existsb _ data) eqn:E; [|reflexivity].
      apply existsb_exists in E as (item & Hin & Hb).
      apply matches_entry_eligible in Hb as [s Hs]. destruct (Hinv item s Hin Hs).
  - intros w. unfold Extractor.missing_items. rewrite filter_In, bool_decide_eq_true.
    specialize (Hinv w). split.
    + intros [Hin Hnone]. rewrite Hnone in Hinv. split; assumption.
    + intros [Hin Hnone]. split; [exact Hin|].
      destruct (m !! w) as [[[it st] d]|]; [|reflexivity].
      destruct Hinv as (H1 & _ & H3). destruct (Hnone it st H1 H3).
Qed.

(** X14: every association the pass retains yields an output item whose name
    is the description of a record of the data that matched the entry, whose
    category is that of the entry, and whose calories value is present. *)
Theorem output_items_complete (data : list food_item) :
  exists m,
    matching_pass extractOne whitelist data = Ok m
    /\ forall w entry, m !! w = Some entry ->
         exists item score,
           entry = (item, score, default "" (description item))
           /\ In item data
           /\ match_of item = Ok (Some (w, score))
           /\ name (output_item w entry) = Some (default "" (description item))
           /\ record_fdcId (output_item w entry) = fdcId item
           /\ category (output_item w entry) = Some (map_category (default "" (description item)) w)
           /\ record_calories (output_item w entry) = last_amount "208" (foodNutrients item)
           /\ record_calories (output_item w entry) <> None.
Proof.
  destruct (pass_holds_eligible data) as (m & Hm & Hinv). exists m. split; [exact Hm|].
  intros w [[item s] d] Hlook. specialize (Hinv w). rewrite Hlook in Hinv.
  destruct Hinv as (Hin & -> & Hmatch & Hcal).
  exists item, s. split; [reflexivity|]. split; [exact Hin|]. split; [exact Hmatch|].
  unfold output_item. simpl. split; [reflexivity|]. split; [reflexivity|].
  split; [reflexivity|]. split; [|exact Hcal].
  rewrite extract_nutrients_fold. reflexivity.
Qed.
End pass_outcome.

(** The order and the repetitions of the whitelist are kept: ["chicken"] is
    matched by a food with calories, ["rice"], listed twice, and ["kiwi"] by
    none. *)
Example missing_items_keeps_order :
  let foods := [ {| description := Some "Chicken breast"; fdcId := Some (JInt 171078);
                    foodNutrients := [{| number := "208"; amount := Some 165%float |}] |} ] in
  let whitelist := ["rice"; "chicken"; "rice"; "kiwi"] in
  match matching_pass no_fuzzy whitelist foods with
  | Ok m => missing_items whitelist m
  | ZeroDivisionError => []
  end = ["rice"; "rice"; "kiwi"].
Proof. vm_compute. reflexivity. Qed.

End PassOutcomeFacts.

(** ** Loading the whitelist *)

Module WhitelistFacts.

Import Extractor TextFacts NormalFormFacts RuleTableFacts.

Lemma load_whitelist_entries (lines : list string) (w : string) :
  In w (load_whitelist lines) <->
  exists line, In line lines /\ strip line <> "" /\ w = lower (strip line).
Proof.
  unfold load_whitelist. rewrite in_map_iff. split.
  - intros (line & <- & Hin). apply filter_In in Hin as [Hin Hne].
    exists line. split; [exact Hin|]. split; [|reflexivity].
    destruct (strip line); [discriminate | discriminate].
  - intros (line & Hin & Hne & ->). exists line. split; [reflexivity|].
    apply filter_In. split; [exact Hin|]. destruct (strip line); [congruence | reflexivity].
Qed.

(** X15: every entry of the loaded whitelist is non-empty, without
    surrounding whitespace and in lower case, so [map_category] classifies it
    as it stands. *)
Theorem load_whitelist_normal (lines : list string) (w : string) :
  In w (load_whitelist lines) ->
  w <> "" /\ strip w = w /\ lower w = w
  /\ forall d, map_category d w = first_rule rules w.
Proof.
  intros H. apply load_whitelist_entries in H as (line & _ & Hne & ->).
  assert (lower (lower (strip line)) = lower (strip line)) as Hl by apply lower_idem.
  split; [|split; [|split]].
  - intros H. destruct (strip line); [congruence | discriminate].
  - rewrite strip_lower, strip_idem. reflexivity.
  - exact Hl.
  - intros d. rewrite map_category_first_rule, Hl. reflexivity.
Qed.

Lemma load_whitelist_normal_witness :
  "chicken breast" <> "" /\ strip "chicken breast" = "chicken breast"
  /\ lower "chicken breast" = "chicken breast"
  /\ forall d, map_category d "chicken breast" = first_rule rules "chicken breast".
Proof.
  apply (load_whitelist_normal
           [String.append "  Chicken Breast " newline; newline; String.append "RICE" newline]).
  vm_compute. left. reflexivity.
Defined.

End WhitelistFacts.

(** ** The lookup tables *)

Module TableFacts.

Import Categories TextFacts NormalFormFacts.

Lemma nonempty_true (s : string) : nonempty s = true <-> s <> "".
Proof. destruct s; simpl; split; congruence. Qed.

Lemma table_of_snoc (entries : list (string * string)) (kv : string * string) :
  table_of (entries ++ [kv]) = table_entry (fst kv) (snd kv) (table_of entries).
Proof. unfold table_of. rewrite fold_left_app. reflexivity. Qed.

Lemma table_entry_lookup (k v k' : string) (table : gmap string string) :
  table_entry k v table !! k'
  = if stored (k, v) && bool_decide (k = k') then Some v else table !! k'.
Proof.
  unfold table_entry, stored. simpl. destruct (nonempty k && nonempty v); simpl; [|reflexivity].
  rewrite lookup_insert. destruct (decide (k = k')) as [->|Hne].
  - rewrite bool_decide_eq_true_2; reflexivity.
  - rewrite bool_decide_eq_false_2; [reflexivity | exact Hne].
Qed.

(** A table holds, under a key, the value of the last stored pair with the key. *)
Lemma table_of_lookup (entries : list (string * string)) (k : string) :
  table_of entries !! k
  = snd <$> find (fun kv => stored kv && bool_decide (fst kv = k)) (rev entries).
Proof.
  induction entries as [|[k0 v0] entries IH] using rev_ind; [reflexivity|].
  rewrite table_of_snoc, rev_app_distr, table_entry_lookup. simpl.
  destruct (stored (k0, v0) && bool_decide (k0 = k)); [reflexivity | exact IH].
Qed.

Lemma table_of_stored (entries : list (string * string)) (k v : string) :
  table_of entries !! k = Some v -> In (k, v) entries /\ k <> "" /\ v <> "".
Proof.
  rewrite table_of_lookup.
  destruct (find _ (rev entries)) as [[k0 v0]|] eqn:Hf; [|discriminate].
  simpl. intros [= <-]. apply find_some in Hf as [Hin Hp].
  apply andb_true_iff in Hp as [Hs Hk]. apply bool_decide_eq_true in Hk. simpl in Hk. subst k0.
  apply andb_true_iff in Hs as [H1 H2]. simpl in H1, H2.
  split; [apply in_rev, Hin|]. split; apply nonempty_true; assumption.
Qed.

Lemma table_of_last (pre post : list (string * string)) (k v : string) :
  k <> "" -> v <> "" ->
  (forall kv, In kv post -> stored kv = true -> fst kv <> k) ->
  table_of (pre ++ (k, v) :: post) !! k = Some v.
Proof.
  intros Hk Hv Hpost. rewrite table_of_lookup, rev_app_distr. simpl. rewrite <- app_assoc. simpl.
  assert (find (fun kv => stored kv && bool_decide (fst kv = k)) (rev post) = None) as Hnone.
  { apply find_all_false. intros kv Hin. apply in_rev in Hin.
    destruct (stored kv) eqn:Hs; [|reflexivity]. simpl.
    apply bool_decide_eq_false. apply (Hpost kv Hin Hs). }
  assert (forall l1 l2, find (fun kv => stored kv && bool_decide (fst kv = k)) l1 = None ->
            find (fun kv => stored kv && bool_decide (fst kv = k)) (l1 ++ l2)
            = find (fun kv => stored kv && bool_decide (fst kv = k)) l2) as Happ.
  { intros l1 l2. induction l1 as [|a l1 IH]; simpl; [reflexivity|].
    destruct (stored a && bool_decide (fst a = k)); [discriminate | exact IH]. }
  rewrite (Happ _ _ Hnone). simpl. unfold stored. simpl.
  rewrite (proj2 (nonempty_true k) Hk), (proj2 (nonempty_true v) Hv).
  rewrite bool_decide_eq_true_2; reflexivity.
Qed.

Lemma fold_left_map {A B C : Type} (f : C -> B -> C) (g : A -> B) (l : list A) (c : C) :
  fold_left (fun acc x => f acc (g x)) l c = fold_left f (map g l) c.
Proof. revert c; induction l as [|x l IH]; intros c; simpl; [reflexivity | apply IH]. Qed.

Lemma build_categoryMap_table (category_data : list category_row) :
  build_categoryMap category_data = table_of (map category_pair category_data).
Proof.
  unfold build_categoryMap, table_of.
  rewrite <- (fold_left_map (fun table kv => table_entry (fst kv) (snd kv) table) category_pair).
  reflexivity.
Qed.

Lemma build_categoryByFdcId_table (food_data : list food_row) :
  build_categoryByFdcId food_data = table_of (map food_pair food_data).
Proof.
  unfold build_categoryByFdcId, table_of.
  rewrite <- (fold_left_map (fun table kv => table_entry (fst kv) (snd kv) table) food_pair).
  reflexivity.
Qed.

Lemma build_fndds_table (fndds_foods : list survey_food) :
  build_fndds_category_by_fdc_id fndds_foods = table_of (map survey_pair fndds_foods).
Proof.
  unfold build_fndds_category_by_fdc_id, table_of.
  rewrite <- (fold_left_map (fun table kv => table_entry (fst kv) (snd kv) table) survey_pair).
  generalize (∅ : gmap string string) as m.
  induction fndds_foods as [|food l IH]; intros m; simpl; [reflexivity|].
  rewrite <- IH. f_equal. unfold survey_pair.
  destruct (default (WweiaDict None) (wweiaFoodCategory food)); reflexivity.
Qed.


Lemma categoryMap_clean (category_data : list category_row) (k v : string) :
  build_categoryMap category_data !! k = Some v ->
  k <> "" /\ v <> "" /\ strip k = k /\ strip v = v
  /\ exists row, In row category_data /\ category_pair row = (k, v).
Proof.
  rewrite build_categoryMap_table. intros H. apply table_of_stored in H as (Hin & Hk & Hv).
  apply in_map_iff in Hin as (row & Hrow & Hin). split; [exact Hk|]. split; [exact Hv|].
  split; [|split]; [| |exists row; split; assumption];
    unfold category_pair in Hrow; injection Hrow as <- <-; apply strip_idem.
Qed.

Lemma categoryByFdcId_clean (food_data : list food_row) (k v : string) :
  build_categoryByFdcId food_data !! k = Some v ->
  k <> "" /\ v <> "" /\ strip k = k /\ strip v = v
  /\ exists row, In row food_data /\ food_pair row = (k, v).
Proof.
  rewrite build_categoryByFdcId_table. intros H. apply table_of_stored in H as (Hin & Hk & Hv).
  apply in_map_iff in Hin as (row & Hrow & Hin). split; [exact Hk|]. split; [exact Hv|].
  split; [|split]; [| |exists row; split; assumption];
    unfold food_pair in Hrow; injection Hrow as <- <-; apply strip_idem.
Qed.

Lemma fndds_table_clean (fndds_foods : list survey_food) (k v : string) :
  build_fndds_category_by_fdc_id fndds_foods !! k = Some v ->
  k <> "" /\ v <> "" /\ strip v = v
  /\ exists food, In food fndds_foods /\ survey_pair food = (k, v).
Proof.
  rewrite build_fndds_table. intros H. apply table_of_stored in H as (Hin & Hk & Hv).
  apply in_map_iff in Hin as (row & Hrow & Hin). split; [exact Hk|]. split; [exact Hv|].
  split; [|exists row; split; assumption].
  unfold survey_pair in Hrow.
  destruct (default (WweiaDict None) (wweiaFoodCategory row)).
  - injection Hrow as <- <-. apply strip_idem.
  - injection Hrow as <- <-. reflexivity.
Qed.

(** X16: the tables of step 2 hold no empty key and no empty value; the keys
    and values read from the CSV files, and the FNDDS descriptions, have no
    surrounding whitespace; every entry comes from a row, or a food, of the
    input. *)
Theorem tables_hold_clean_entries (category_data : list category_row)
    (food_data : list food_row) (fndds_foods : list survey_food) (k v : string) :
  (build_categoryMap category_data !! k = Some v ->
     k <> "" /\ v <> "" /\ strip k = k /\ strip v = v
     /\ exists row, In row category_data /\ category_pair row = (k, v))
  /\ (build_categoryByFdcId food_data !! k = Some v ->
     k <> "" /\ v <> "" /\ strip k = k /\ strip v = v
     /\ exists row, In row food_data /\ food_pair row = (k, v))
  /\ (build_fndds_category_by_fdc_id fndds_foods !! k = Some v ->
     k <> "" /\ v <> "" /\ strip v = v
     /\ exists food, In food fndds_foods /\ survey_pair food = (k, v)).
Proof.
  split; [apply categoryMap_clean | split; [apply categoryByFdcId_clean | apply fndds_table_clean]].
Qed.

(** X17: on the tables built from the files, the category assigned to a
    record is never empty and has no surrounding whitespace. *)
Theorem assign_from_files_label (fndds_foods : list survey_food) (food_data : list food_row)
    (category_data : list category_row) (item : food_record) :
  let label := assign_from_files fndds_foods food_data category_data item in
  label <> "" /\ strip label = label.
Proof.
  cbv zeta. unfold assign_from_files, assign_category.
  destruct (build_fndds_category_by_fdc_id fndds_foods !! fdc_id_of item) as [d|] eqn:H1.
  { apply fndds_table_clean in H1. tauto. }
  destruct (build_categoryByFdcId food_data !! fdc_id_of item) as [c|] eqn:H2;
    [|split; [discriminate | reflexivity]].
  destruct (build_categoryMap category_data !! c) as [d|] eqn:H3;
    [|split; [discriminate | reflexivity]].
  apply categoryMap_clean in H3. tauto.
Qed.

(** *** Round trips through the tables *)
(** X18: a record gets the stripped category description of the last FNDDS
    food that has its identifier and a non-blank description, whatever the
    SR Legacy tables hold; the identifier is compared after [str], so a
    number and a string identifier meet. *)
Theorem fndds_category_round_trip (pre post : list survey_food) (food : survey_food)
    (description : string) (food_data : list food_row) (category_data : list category_row)
    (item : food_record) :
  wweiaFoodCategory food = Some (WweiaDict (Some description)) ->
  strip description <> "" ->
  survey_fdc_id food <> "" ->
  (forall later, In later post -> stored (survey_pair later) = true ->
                 survey_fdc_id later <> survey_fdc_id food) ->
  fdc_id_of item = survey_fdc_id food ->
  assign_from_files (pre ++ food :: post) food_data category_data item = strip description.
Proof.
  intros Hcat Hdesc Hid Hpost Hitem. unfold assign_from_files, assign_category.
  rewrite build_fndds_table, map_app, Hitem. simpl.
  assert (survey_pair food = (survey_fdc_id food, strip description)) as ->
    by (unfold survey_pair; rewrite Hcat; reflexivity).
  rewrite table_of_last; [reflexivity | exact Hid | exact Hdesc |].
  intros kv Hin Hs. apply in_map_iff in Hin as (later & <- & Hin).
  assert (fst (survey_pair later) = survey_fdc_id later) as ->.
  { unfold survey_pair in *. destruct (default _ (wweiaFoodCategory later)); [reflexivity|].
    discriminate. }
  apply (Hpost later Hin Hs).
Qed.

(** X19: a record without an FNDDS category gets the description of its SR
    Legacy category: of the last stored row of [food.csv] with its identifier
    and the last stored row of [food_category.csv] with that row's category
    id. *)
Theorem sr_legacy_category_round_trip (fndds_foods : list survey_food)
    (food_pre food_post : list food_row) (frow : food_row)
    (cat_pre cat_post : list category_row) (crow : category_row) (item : food_record) :
  build_fndds_category_by_fdc_id fndds_foods !! fdc_id_of item = None ->
  stored (food_pair frow) = true ->
  fst (food_pair frow) = fdc_id_of item ->
  (forall later, In later food_post -> stored (food_pair later) = true ->
                 fst (food_pair later) <> fst (food_pair frow)) ->
  stored (category_pair crow) = true ->
  fst (category_pair crow) = snd (food_pair frow) ->
  (forall later, In later cat_post -> stored (category_pair later) = true ->
                 fst (category_pair later) <> fst (category_pair crow)) ->
  assign_from_files fndds_foods (food_pre ++ frow :: food_post) (cat_pre ++ crow :: cat_post) item
  = snd (category_pair crow).
Proof.
  intros Hnone Hfs Hfk Hfpost Hcs Hck Hcpost. unfold assign_from_files, assign_category.
  rewrite Hnone, build_categoryByFdcId_table, build_categoryMap_table, !map_app.
  cbn [map].
  destruct (food_pair frow) as [fk fv]. destruct (category_pair crow) as [ck cv].
  cbn [fst snd] in *. subst fk ck.
  apply andb_true_iff in Hfs as [Hf1 Hf2]. apply andb_true_iff in Hcs as [Hc1 Hc2].
  cbn [fst snd] in *. apply nonempty_true in Hf1, Hf2, Hc1, Hc2.
  rewrite table_of_last; [|assumption|assumption|].
  2:{ intros kv Hin Hs. apply in_map_iff in Hin as (later & <- & Hin). apply Hfpost; assumption. }
  rewrite table_of_last; [reflexivity|assumption|assumption|].
  intros kv Hin Hs. apply in_map_iff in Hin as (later & <- & Hin). apply Hcpost; assumption.
Qed.

Lemma fndds_category_round_trip_witness :
  assign_from_files
    ([{| survey_fdcId := Some (JInt 2341752); wweiaFoodCategory := Some (WweiaDict (Some "Milk, whole")) |}]
     ++ {| survey_fdcId := Some (JInt 2341752); wweiaFoodCategory := Some (WweiaDict (Some " Yogurt, regular ")) |}
     :: [{| survey_fdcId := Some (JInt 2341752); wweiaFoodCategory := Some WweiaOther |};
         {| survey_fdcId := Some (JInt 7); wweiaFoodCategory := None |}])
    [] [] (sample_record (Some "Yogurt") None (Some (JStr "2341752")))
  = strip " Yogurt, regular ".
Proof.
  apply fndds_category_round_trip; try reflexivity; try (vm_compute; discriminate).
  intros later Hin Hs. simpl in Hin. destruct Hin as [<-|[<-|[]]]; vm_compute in Hs; discriminate.
Defined.

Lemma sr_legacy_category_round_trip_witness :
  assign_from_files []
    ([{| row_fdc_id := Some "171077"; row_food_category_id := Some "1" |}]
     ++ {| row_fdc_id := Some " 171077 "; row_food_category_id := Some "5" |}
     :: [{| row_fdc_id := Some "171077"; row_food_category_id := Some "  " |}])
    ([] ++ {| row_id := Some "5"; row_description := Some "Poultry Products" |}
     :: [{| row_id := Some "6"; row_description := Some "Soups" |}])
    (sample_record (Some "Chicken") None (Some (JInt 171077)))
  = snd (category_pair {| row_id := Some "5"; row_description := Some "Poultry Products" |}).
Proof.
  apply sr_legacy_category_round_trip; try reflexivity.
  - intros later Hin Hs. simpl in Hin. destruct Hin as [<-|[]]. vm_compute in Hs. discriminate.
  - intros later Hin Hs. simpl in Hin. destruct Hin as [<-|[]]. vm_compute. discriminate.
Defined.

End TableFacts.

(** ** The master catalog *)

Module CatalogFacts.

Import Categories TextFacts MergerFacts.

(** X20: merge precedence.  The master list holds, for a non-empty key, the
    first record that bears it in the order local foods, FNDDS added foods,
    FNDDS manual additions, and no other. *)
Theorem master_first_per_key (local_foods fndds_added fndds_manual : list food_record)
    (k : string) :
  is_empty k = false ->
  List.filter (bears k) (master_foods local_foods fndds_added fndds_manual)
  = firstn 1 (List.filter (bears k) local_foods ++ List.filter (bears k) fndds_added
              ++ List.filter (bears k) fndds_manual).
Proof.
  intros Hk. unfold master_foods, merge.
  rewrite sort_by_key_stable, (dedup_first_of_key k _ Hk), !List.filter_app. reflexivity.
Qed.

Lemma master_first_per_key_witness :
  List.filter (bears "banana")
    (master_foods [sample_record (Some "Banana") (Some "banana") None]
                  [sample_record (Some "BANANA") (Some "banana") None]
                  [sample_record (Some "Apple") None None])
  = firstn 1 (List.filter (bears "banana") [sample_record (Some "Banana") (Some "banana") None]
              ++ List.filter (bears "banana") [sample_record (Some "BANANA") (Some "banana") None]
              ++ List.filter (bears "banana") [sample_record (Some "Apple") None None]).
Proof. apply master_first_per_key. reflexivity. Defined.

Lemma In_filter_head (k : string) (x : food_record) (l : list food_record) :
  In x l -> bears k x = true -> exists y, firstn 1 (List.filter (bears k) l) = [y].
Proof.
  intros Hin Hb. assert (In x (List.filter (bears k) l)) as H by (apply filter_In; tauto).
  destruct (List.filter (bears k) l) as [|y f]; [destruct H | exists y; reflexivity].
Qed.

Lemma dedup_keeps_keys (l : list food_record) (x : food_record) :
  In x l -> exists y, In y (dedup l) /\ unique_key_of y = unique_key_of x.
Proof.
  intros Hin. destruct (is_empty (unique_key_of x)) eqn:He.
  - exists x. split; [|reflexivity]. apply is_empty_true in He.
    assert (In x (List.filter (bears "") (dedup l))) as H.
    { rewrite dedup_keeps_empty_keys. apply filter_In. split; [exact Hin | apply bears_eq, He]. }
    apply filter_In in H. tauto.
  - destruct (In_filter_head (unique_key_of x) x l Hin (proj2 (bears_eq _ x) eq_refl)) as [y Hy].
    rewrite <- (dedup_first_of_key _ l He) in Hy. exists y.
    assert (In y (List.filter (bears (unique_key_of x)) (dedup l))) as H
      by (rewrite Hy; left; reflexivity).
    apply filter_In in H as [H1 H2]. split; [exact H1 | apply bears_eq, H2].
Qed.

(** X21: the master list has no two records with the same non-empty key, holds
    only records of the input, still has a record for every key of the input,
    and is no longer than the input. *)
Theorem master_keys_unique_and_complete (local_foods fndds_added fndds_manual : list food_record) :
  let all_foods := local_foods ++ fndds_added ++ fndds_manual in
  let master := master_foods local_foods fndds_added fndds_manual in
  distinct_keys master
  /\ (forall y, In y master -> In y all_foods)
  /\ (forall x, In x all_foods -> exists y, In y master /\ unique_key_of y = unique_key_of x)
  /\ length master <= length all_foods.
Proof.
  cbv zeta. unfold master_foods, merge.
  set (all_foods := local_foods ++ fndds_added ++ fndds_manual).
  pose proof (sort_by_key_perm (dedup all_foods)) as Hperm.
  split; [apply (distinct_keys_perm (dedup all_foods)); [exact Hperm | apply dedup_distinct]|].
  split; [|split].
  - intros y Hy. apply (Permutation_in _ (Permutation_sym Hperm)) in Hy.
    apply list_elem_of_In. eapply elem_of_sublist; [apply list_elem_of_In, Hy | apply dedup_sublist].
  - intros x Hx. destruct (dedup_keeps_keys all_foods x Hx) as (y & Hy & Hk).
    exists y. split; [apply (Permutation_in _ Hperm), Hy | exact Hk].
  - rewrite <- (Permutation_length Hperm). apply sublist_length, dedup_sublist.
Qed.

(** *** The summary *)
Lemma total_count_insert (counts : gmap string nat) (label : string) (n : nat) :
  counts !! label = None -> total_count (<[label := n]> counts) = n + total_count counts.
Proof.
  intros Hnone. unfold total_count.
  apply (map_fold_insert_L (fun _ n acc => n + acc)); [intros; lia | exact Hnone].
Qed.

Lemma total_count_one (counts : gmap string nat) (label : string) :
  total_count (count_one counts label) = S (total_count counts).
Proof.
  unfold count_one. destruct (counts !! label) as [n|] eqn:Hl; simpl.
  - rewrite <- (insert_delete_id counts label n Hl) at 2.
    rewrite <- insert_delete_eq.
    rewrite !total_count_insert by apply lookup_delete_eq. reflexivity.
  - rewrite total_count_insert by exact Hl. reflexivity.
Qed.

Lemma count_one_lookup (counts : gmap string nat) (label c : string) :
  default 0 (count_one counts label !! c)
  = (if String.eqb label c then 1 else 0) + default 0 (counts !! c).
Proof.
  unfold count_one. rewrite lookup_insert.
  destruct (decide (label = c)) as [->|Hne].
  - rewrite String.eqb_refl. reflexivity.
  - rewrite (proj2 (String.eqb_neq label c) Hne). reflexivity.
Qed.

Lemma counter_lookup (labels : list string) (c : string) :
  default 0 (fold_left count_one labels ∅ !! c)
  = length (List.filter (fun label => String.eqb label c) labels).
Proof.
  induction labels as [|l labels IH] using rev_ind; [reflexivity|].
  rewrite fold_left_app, List.filter_app, length_app. simpl.
  rewrite count_one_lookup, IH. destruct (String.eqb l c); simpl; lia.
Qed.

Lemma counter_total (labels : list string) :
  total_count (fold_left count_one labels ∅) = length labels.
Proof.
  induction labels as [|l labels IH] using rev_ind; [reflexivity|].
  rewrite fold_left_app, length_app. simpl. rewrite total_count_one, IH. lia.
Qed.

Lemma filter_map_length {A B : Type} (f : A -> B) (p : B -> bool) (l : list A) :
  length (List.filter p (map f l)) = length (List.filter (fun x => p (f x)) l).
Proof.
  induction l as [|x l IH]; simpl; [reflexivity|]. destruct (p (f x)); simpl; rewrite IH; reflexivity.
Qed.

(** X22: the summary counts each category label as often as the master list
    has records with it, a record without category under "Unknown"; the counts
    add up to the length of the list; the uncategorized count is the number of
    records labelled "Uncategorized". *)
Theorem summary_counts (master : list food_record) :
  (forall label,
      default 0 (category_counts master !! label)
      = length (List.filter (fun item => String.eqb (category_or_unknown item) label) master))
  /\ total_count (category_counts master) = length master
  /\ uncategorized_count master
     = length (List.filter (fun item => String.eqb (category_or_unknown item) "Uncategorized")
                           master).
Proof.
  unfold uncategorized_count, category_counts. split; [|split].
  - intros label. rewrite counter_lookup. apply filter_map_length.
  - rewrite counter_total. apply length_map.
  - rewrite counter_lookup. apply filter_map_length.
Qed.

(** *** Categories and the merge *)
Section categorize_merge.
Variable fndds_category_by_fdc_id categoryByFdcId categoryMap : gmap string string.
Local Abbreviation categorize :=
  (Categories.categorize fndds_category_by_fdc_id categoryByFdcId categoryMap).

Lemma categorize_key (item : food_record) :
  unique_key_of (categorize item) = unique_key_of item.
Proof. reflexivity. Qed.

Lemma keeps_categorize (pre : list food_record) (item : food_record) :
  keeps (map categorize pre) (categorize item) = keeps pre item.
Proof.
  unfold keeps. rewrite categorize_key. f_equal. f_equal.
  induction pre as [|x pre IH]; simpl; [reflexivity|]. rewrite IH. reflexivity.
Qed.

Lemma dedup_categorize (l : list food_record) :
  dedup (map categorize l) = map categorize (dedup l).
Proof.
  induction l as [|x l IH] using rev_ind; [reflexivity|].
  rewrite map_app. simpl. rewrite !dedup_snoc, map_app, IH, keeps_categorize.
  destruct (keeps l x); reflexivity.
Qed.

Lemma insert_sorted_categorize (x : food_record) (l : list food_record) :
  insert_sorted (categorize x) (map categorize l) = map categorize (insert_sorted x l).
Proof.
  induction l as [|y l IH]; simpl; [reflexivity|].
  change (get_sort_key (categorize y)) with (get_sort_key y).
  change (get_sort_key (categorize x)) with (get_sort_key x).
  destruct (str_ltb (get_sort_key y) (get_sort_key x)); simpl; [rewrite IH|]; reflexivity.
Qed.

Lemma sort_categorize (l : list food_record) :
  sort_by_key (map categorize l) = map categorize (sort_by_key l).
Proof.
  induction l as [|x l IH]; simpl; [reflexivity|].
  rewrite IH. apply insert_sorted_categorize.
Qed.

(** X23: stamping the categories on a list and merging it gives the merged
    list with the categories stamped: the category takes no part in the
    deduplication and the order. *)
Theorem merge_categorize_commute (l : list food_record) :
  merge (map categorize l) = map categorize (merge l).
Proof. unfold merge. rewrite dedup_categorize. apply sort_categorize. Qed.
End categorize_merge.

End CatalogFacts.
